(** * UnlockPi web client: RPC reconciler rules, procedure registry,
      highlight matcher and audio signal extractor

    A shallow embedding of the state-handling code of the client:

    - [src/hooks/use-rpc-handler.ts]        (module [Rpc])
    - [src/app/talk/_hooks/use-board-rpc.ts] (module [Board], the talk page)
    - the classroom page's [ClassroomInner]  (module [Classroom])
    - [BoardPanel]'s [splitTextOnHighlights] (module [Highlight])
    - [src/hooks/use-audio-analyzer.ts]      (module [Audio])
    - the classroom page as a whole          (module [ClassroomPage])
    - [ContentPanel] and [highlightContent]  (modules [ContentPanel],
      [BoardTree], with the matcher's fragments in [Matching])
    - [TalkVisualizer]'s active levels       (module [Visualizer])
    - the talk page's [useTranscript]        (module [Transcript])

    JavaScript values are an inductive type, a handler is a function in a
    small state-and-exception monad, React state is a record that the
    setters replace, and timers are a queue of due times. *)

From Stdlib Require Import String Ascii ZArith QArith Lia.
From Stdlib Require DecimalString DecimalNat.
From stdpp Require Import base option list strings gmap.

Set Warnings "-register-all".
Local Open Scope string_scope.

(** * JavaScript values and the effect monad *)

Module JS.

(** A value as the handlers see it. [JSON.parse] yields every constructor
    but [JUndefined]; reading a missing property yields [JUndefined]. A
    number is kept as the rational it denotes. *)
Inductive JValue : Type :=
  | JUndefined
  | JNull
  | JBool (b : bool)
  | JNum (q : Q)
  | JStr (s : string)
  | JArr (items : list JValue)
  | JObj (fields : gmap string JValue).

Inductive JsError : Type := TypeError | RangeError | SyntaxError.

Inductive Outcome (A : Type) : Type :=
  | Returned (a : A)
  | Raised (e : JsError).
Arguments Returned {A} a.
Arguments Raised {A} e.

(** A computation over a store [S]: what a statement sequence did to the
    store is kept also when it raises, as in JavaScript. *)
Definition Eff (S A : Type) : Type := S → Outcome A * S.

Definition eff_ret {S A} (a : A) : Eff S A := λ st, (Returned a, st).

Definition eff_bind {S A B} (f : A → Eff S B) (c : Eff S A) : Eff S B :=
  λ st, match c st with
        | (Returned a, st') => f a st'
        | (Raised e, st') => (Raised e, st')
        end.

Definition eff_throw {S A} (e : JsError) : Eff S A := λ st, (Raised e, st).

#[export] Instance eff_mret {S} : MRet (Eff S) := @eff_ret S.
#[export] Instance eff_mbind {S} : MBind (Eff S) := @eff_bind S.
#[export] Instance eff_mthrow {S} : MThrow JsError (Eff S) := @eff_throw S.

(** Lifts a pure outcome, such as a property read, into a computation. *)
Definition lift {S A} (o : Outcome A) : Eff S A := λ st, (o, st).

(** A React state setter: replaces part of the store. *)
Definition modify {S} (f : S → S) : Eff S () := λ st, (Returned (), f st).

(** ToBoolean: [undefined], [null], [false], [0] and [""] are falsy,
    every array and object is truthy. *)
Definition truthy (v : JValue) : bool :=
  match v with
  | JUndefined | JNull => false
  | JBool b => b
  | JNum q => negb (Qeq_bool q 0)
  | JStr s => negb (String.eqb s "")
  | JArr _ | JObj _ => true
  end.

(** [v.k] for the property names the handlers read ([words], [text],
    [studentName], [question], [answers], [index], [scores],
    [percentage]): reading from [null] or [undefined] is a TypeError, an
    object gives its own property, and no array, string, number or boolean
    carries one of these names. *)
Definition get_prop (v : JValue) (k : string) : Outcome JValue :=
  match v with
  | JUndefined | JNull => Raised TypeError
  | JObj fields => Returned (default JUndefined (fields !! k))
  | JBool _ | JNum _ | JStr _ | JArr _ => Returned JUndefined
  end.

(** The own property [k] of a decoded payload, when it has one: what the
    statements below call a field that is present. *)
Definition own_field (payload : JValue) (k : string) : option JValue :=
  match payload with
  | JObj fields => fields !! k
  | _ => None
  end.

Definition nullish (v : JValue) : bool :=
  match v with JUndefined | JNull => true | _ => false end.

(** The element position a number names in [arr[n]]: the key is
    ToString(n), which is an array index only for a non-negative
    integer. *)
Definition array_index (q : Q) : option nat :=
  let r := Qred q in
  if (Qden r =? 1)%positive && (0 <=? Qnum r)%Z
  then Some (Z.to_nat (Qnum r)) else None.

(** [arr.map(f)] with a callback that may raise; calling [.map] on a
    value that is not an array is a TypeError. *)
Definition js_map {S A} (f : JValue → Eff S A) (v : JValue) : Eff S (list A) :=
  match v with
  | JArr items => mapM f items
  | _ => mthrow TypeError
  end.

(** [JSON.stringify({ success: true })] *)
Definition success_text : string :=
  let dq := String (ascii_of_nat 34) "" in
  "{" ++ dq ++ "success" ++ dq ++ ":true}".

Definition success_object : JValue := JObj {[ "success" := JBool true ]}.

End JS.
Export JS.

(** * The classroom page: [ClassroomInner] *)

Module Classroom.

Record CognitiveAnswer : Type := {
  text : JValue;
  percentage : JValue;
  revealed : bool;
}.

Inductive Sound : Type := RevealSound | BuzzerSound.

(** The [useState] cells of [ClassroomPage] that the handlers write,
    followed by the environment they act on: the clock, the due times of
    the pending [setFocusedStudent(null)] callbacks in the order
    [setTimeout] queued them, and the sounds played so far. *)
Record State : Type := {
  content : JValue;
  highlights : JValue;
  focusedStudent : JValue;
  viewMode : string;
  cognitiveQuestion : JValue;
  cognitiveAnswers : list CognitiveAnswer;
  teamScores : JValue;
  now : N;
  timers : list N;
  played : list Sound;
}.

Definition setContent (v : JValue) : Eff State () :=
  modify (λ st, {| content := v; highlights := highlights st;
    focusedStudent := focusedStudent st; viewMode := viewMode st;
    cognitiveQuestion := cognitiveQuestion st;
    cognitiveAnswers := cognitiveAnswers st; teamScores := teamScores st;
    now := now st; timers := timers st; played := played st |}).

Definition setHighlights (v : JValue) : Eff State () :=
  modify (λ st, {| content := content st; highlights := v;
    focusedStudent := focusedStudent st; viewMode := viewMode st;
    cognitiveQuestion := cognitiveQuestion st;
    cognitiveAnswers := cognitiveAnswers st; teamScores := teamScores st;
    now := now st; timers := timers st; played := played st |}).

Definition setFocusedStudent (v : JValue) : Eff State () :=
  modify (λ st, {| content := content st; highlights := highlights st;
    focusedStudent := v; viewMode := viewMode st;
    cognitiveQuestion := cognitiveQuestion st;
    cognitiveAnswers := cognitiveAnswers st; teamScores := teamScores st;
    now := now st; timers := timers st; played := played st |}).

Definition setViewMode (m : string) : Eff State () :=
  modify (λ st, {| content := content st; highlights := highlights st;
    focusedStudent := focusedStudent st; viewMode := m;
    cognitiveQuestion := cognitiveQuestion st;
    cognitiveAnswers := cognitiveAnswers st; teamScores := teamScores st;
    now := now st; timers := timers st; played := played st |}).

Definition setCognitiveQuestion (v : JValue) : Eff State () :=
  modify (λ st, {| content := content st; highlights := highlights st;
    focusedStudent := focusedStudent st; viewMode := viewMode st;
    cognitiveQuestion := v;
    cognitiveAnswers := cognitiveAnswers st; teamScores := teamScores st;
    now := now st; timers := timers st; played := played st |}).

(** [setCognitiveAnswers] with an updater function of the previous value;
    a plain value is the constant updater. *)
Definition setCognitiveAnswers
    (f : list CognitiveAnswer → list CognitiveAnswer) : Eff State () :=
  modify (λ st, {| content := content st; highlights := highlights st;
    focusedStudent := focusedStudent st; viewMode := viewMode st;
    cognitiveQuestion := cognitiveQuestion st;
    cognitiveAnswers := f (cognitiveAnswers st); teamScores := teamScores st;
    now := now st; timers := timers st; played := played st |}).

Definition setTeamScores (v : JValue) : Eff State () :=
  modify (λ st, {| content := content st; highlights := highlights st;
    focusedStudent := focusedStudent st; viewMode := viewMode st;
    cognitiveQuestion := cognitiveQuestion st;
    cognitiveAnswers := cognitiveAnswers st; teamScores := v;
    now := now st; timers := timers st; played := played st |}).

(** [setTimeout(() => setFocusedStudent(null), delay)]: queues the
    callback; nothing is returned to cancel it with. *)
Definition setTimeout_clear_focus (delay : N) : Eff State () :=
  modify (λ st, {| content := content st; highlights := highlights st;
    focusedStudent := focusedStudent st; viewMode := viewMode st;
    cognitiveQuestion := cognitiveQuestion st;
    cognitiveAnswers := cognitiveAnswers st; teamScores := teamScores st;
    now := now st; timers := timers st ++ [(now st + delay)%N];
    played := played st |}).

Definition play (s : Sound) : Eff State () :=
  modify (λ st, {| content := content st; highlights := highlights st;
    focusedStudent := focusedStudent st; viewMode := viewMode st;
    cognitiveQuestion := cognitiveQuestion st;
    cognitiveAnswers := cognitiveAnswers st; teamScores := teamScores st;
    now := now st; timers := timers st; played := played st ++ [s] |}).

(** 1. Highlight Text *)
Definition highlight_text (payload : JValue) : Eff State JValue :=
  words ← lift (get_prop payload "words");
  if truthy words then
    words ← lift (get_prop payload "words");
    setHighlights words;;
    setViewMode "content";;
    mret JUndefined
  else mret JUndefined.

(** 2. Update Content *)
Definition update_content (payload : JValue) : Eff State JValue :=
  t ← lift (get_prop payload "text");
  if truthy t then
    t ← lift (get_prop payload "text");
    setContent t;;
    setHighlights (JArr []);;
    setViewMode "content";;
    mret JUndefined
  else mret JUndefined.

(** 3. Focus Student *)
Definition show_student_focus (payload : JValue) : Eff State JValue :=
  name ← lift (get_prop payload "studentName");
  if truthy name then
    name ← lift (get_prop payload "studentName");
    setFocusedStudent name;;
    setTimeout_clear_focus 5000%N;;
    mret JUndefined
  else mret JUndefined.

(** 4. Start Cognitive Test. [a && b] reads [b] only when [a] is truthy. *)
Definition start_cognitive_test (payload : JValue) : Eff State JValue :=
  question ← lift (get_prop payload "question");
  both ← (if truthy question
          then answers ← lift (get_prop payload "answers");
               mret (truthy answers)
          else mret false);
  if both : bool then
    question ← lift (get_prop payload "question");
    setCognitiveQuestion question;;
    raw ← lift (get_prop payload "answers");
    answers ← js_map (λ a,
                 t ← lift (get_prop a "text");
                 p ← lift (get_prop a "percentage");
                 mret {| text := t; percentage := p; revealed := false |}) raw;
    setCognitiveAnswers (λ _, answers);;
    setViewMode "cognitive_test";;
    mret JUndefined
  else mret JUndefined.

(** [newAnswers[index].revealed = true] *)
Definition reveal (a : CognitiveAnswer) : CognitiveAnswer :=
  {| text := text a; percentage := percentage a; revealed := true |}.

(** The updater of [reveal_answer]: copies the array and marks the entry
    at [index] when there is one. Every entry is an object, hence truthy. *)
Definition reveal_at (index : Q) (prev : list CognitiveAnswer)
    : list CognitiveAnswer :=
  match array_index index with
  | Some i =>
      match prev !! i with
      | Some a => <[i := reveal a]> prev
      | None => prev
      end
  | None => prev
  end.

(** 5. Reveal Answer *)
Definition reveal_answer (payload : JValue) : Eff State JValue :=
  index ← lift (get_prop payload "index");
  match index with
  | JNum q =>
      setCognitiveAnswers (reveal_at q);;
      play RevealSound;;
      mret JUndefined
  | _ => mret JUndefined
  end.

(** 6. Update Scores *)
Definition update_scores (payload : JValue) : Eff State JValue :=
  scores ← lift (get_prop payload "scores");
  if truthy scores then
    scores ← lift (get_prop payload "scores");
    setTeamScores scores;;
    mret JUndefined
  else mret JUndefined.

(** 7. Show Error Buzzer *)
Definition show_error_buzzer (payload : JValue) : Eff State JValue :=
  play BuzzerSound;;
  mret JUndefined.

(** The clock reaches [t]: the event loop runs every callback due by
    then, oldest first, and drops it from the queue. *)
Definition due_by (t : N) (st : State) : list N :=
  filter (λ d : N, (d ≤ t)%N) (timers st).

Definition advance (t : N) (st : State) : State :=
  foldl (λ s _, snd (setFocusedStudent JNull s))
    {| content := content st; highlights := highlights st;
       focusedStudent := focusedStudent st; viewMode := viewMode st;
       cognitiveQuestion := cognitiveQuestion st;
       cognitiveAnswers := cognitiveAnswers st; teamScores := teamScores st;
       now := N.max (now st) t;
       timers := filter (λ d : N, ¬ (d ≤ t)%N) (timers st);
       played := played st |}
    (due_by t st).

(** The part of the state [update_content] and [highlight_text] share
    with the talk page. *)
Definition board_view (st : State) : JValue * JValue :=
  (content st, highlights st).

(** The methods [ClassroomInner] registers, in source order. *)
Definition rules : list (string * (JValue → Eff State JValue)) :=
  [ ("highlight_text", highlight_text);
    ("update_content", update_content);
    ("show_student_focus", show_student_focus);
    ("start_cognitive_test", start_cognitive_test);
    ("reveal_answer", reveal_answer);
    ("update_scores", update_scores);
    ("show_error_buzzer", show_error_buzzer) ].

End Classroom.

(** * The talk page: [useBoardRPC] *)

Module Board.

Record State : Type := {
  boardText : JValue;
  boardHighlights : JValue;
}.

Definition setBoardText (v : JValue) : Eff State () :=
  modify (λ st, {| boardText := v; boardHighlights := boardHighlights st |}).

Definition setBoardHighlights (v : JValue) : Eff State () :=
  modify (λ st, {| boardText := boardText st; boardHighlights := v |}).

(** [x !== undefined] *)
Definition is_defined (v : JValue) : bool :=
  match v with JUndefined => false | _ => true end.

Definition update_content (payload : JValue) : Eff State JValue :=
  t ← lift (get_prop payload "text");
  (if is_defined t then
     t ← lift (get_prop payload "text");
     setBoardText t;;
     setBoardHighlights (JArr [])
   else mret ());;
  mret (JStr success_text).

Definition highlight_text (payload : JValue) : Eff State JValue :=
  words ← lift (get_prop payload "words");
  (if truthy words then
     words ← lift (get_prop payload "words");
     setBoardHighlights words
   else mret ());;
  mret (JStr success_text).

Definition clear_board (payload : JValue) : Eff State JValue :=
  setBoardText (JStr "");;
  setBoardHighlights (JArr []);;
  mret (JStr success_text).

Definition show_student_focus (payload : JValue) : Eff State JValue :=
  mret (JStr success_text).

Definition board_view (st : State) : JValue * JValue :=
  (boardText st, boardHighlights st).

Definition rules : list (string * (JValue → Eff State JValue)) :=
  [ ("update_content", update_content);
    ("highlight_text", highlight_text);
    ("clear_board", clear_board);
    ("show_student_focus", show_student_focus) ].

End Board.

(** * The procedure registry: [useRpcHandler] *)

Module Rpc.

Section UseRpcHandler.
Context {St : Type}.

(** The platform's [JSON.parse] ([None] when it raises a SyntaxError)
    and [JSON.stringify]. *)
Variable JSON_parse : string → option JValue.
Variable JSON_stringify : JValue → string.

Definition Handler : Type := JValue → Eff St JValue.

(** A closure handed to the transport. The closure of the hook captures
    the cell [handlerRef], not the handler that is in it, so it is a
    function of what the cell holds when the transport calls it. *)
Definition Callback : Type := Handler → string → Eff St string.

(** Modelled from the spec: the session transport is the LiveKit client,
    whose code is not part of the sources. Section 4.1 gives its
    contract, [register(session, method, handler) -> unregister]. A
    registration is kept per call, with the closure the call was given,
    so that the transport could hold several for one method. *)
Record Registration : Type := {
  reg_method : string;
  reg_id : nat;
  reg_callback : Callback;
}.

(** Modelled from the spec: the local participant of a session, as the
    hook uses it: its active registrations, and the supply of identities
    for new ones. Each [registerRpcMethod] call adds a registration and
    hands back the closure that removes it, here the registration's
    identity. *)
Record Participant : Type := {
  registrations : list Registration;
  fresh : nat;
}.

(** Modelled from the spec: [localParticipant.registerRpcMethod(method,
    callback)]. It returns the closure that unregisters; the hook wraps
    the call in [try], so the result is an outcome. *)
Definition registerRpcMethod (method : string) (callback : Callback)
    (p : Participant) : Outcome (nat * Participant) :=
  Returned (fresh p,
            {| registrations :=
                 registrations p
                 ++ [{| reg_method := method; reg_id := fresh p;
                        reg_callback := callback |}];
               fresh := S (fresh p) |}).

(** Modelled from the spec: running the closure [registerRpcMethod]
    returned. Running it again finds nothing to remove. *)
Definition unregister (id : nat) (p : Participant) : Participant :=
  {| registrations := filter (λ r, reg_id r ≠ id) (registrations p);
     fresh := fresh p |}.

(** One hook instance: its three refs, and the room it found in the
    context ([None] while the room or its local participant is not
    there). *)
Record Hook : Type := {
  handlerRef : Handler;
  registeredRef : bool;
  unregisterRef : option nat;
  localParticipant : option Participant;
}.

Definition no_registrations : Participant :=
  {| registrations := []; fresh := 0 |}.

(** The first render, on a session that is connected already or not yet;
    nothing is registered. *)
Definition mount (connected : bool) (handler : Handler) : Hook :=
  {| handlerRef := handler; registeredRef := false; unregisterRef := None;
     localParticipant := if connected then Some no_registrations else None |}.

(** The room and its local participant arrive in the context. *)
Definition connect (w : Hook) : Hook :=
  {| handlerRef := handlerRef w; registeredRef := registeredRef w;
     unregisterRef := unregisterRef w;
     localParticipant :=
       match localParticipant w with
       | Some p => Some p
       | None => Some no_registrations
       end |}.

(** A render: [handlerRef.current = handler]. *)
Definition render (handler : Handler) (w : Hook) : Hook :=
  {| handlerRef := handler; registeredRef := registeredRef w;
     unregisterRef := unregisterRef w;
     localParticipant := localParticipant w |}.

Definition set_registered (b : bool) (w : Hook) : Hook :=
  {| handlerRef := handlerRef w; registeredRef := b;
     unregisterRef := unregisterRef w;
     localParticipant := localParticipant w |}.

(** The payload decode at the head of the registered callback. *)
Definition decode (raw : string) : JValue :=
  match JSON_parse raw with
  | Some v => v
  | None => JStr raw
  end.

(** The closure given to [registerRpcMethod], called while the cell
    [handlerRef] holds [current]. What the handler raises is logged and
    raised again. *)
Definition invocation : Callback :=
  λ current raw,
    let payload := decode raw in
    response ← current payload;
    mret (JSON_stringify (if truthy response then response else success_object)).

(** The callback as it runs for the hook [w]: it reads [handlerRef] when
    it is called. *)
Definition callback (w : Hook) (raw : string) : Eff St string :=
  invocation (handlerRef w) raw.

(** The effect body. The boolean tells whether it returned the cleanup
    function. *)
Definition effect (method : string) (w : Hook) : Hook * bool :=
  match localParticipant w with
  | None => (set_registered false w, false)
  | Some p =>
      if registeredRef w then (w, false)
      else
        match registerRpcMethod method invocation p with
        | Returned (id, p') =>
            ({| handlerRef := handlerRef w; registeredRef := true;
                unregisterRef := Some id; localParticipant := Some p' |},
             true)
        | Raised _ => (set_registered false w, true)
        end
  end.

(** The cleanup function the effect returns. *)
Definition cleanup (w : Hook) : Hook :=
  match unregisterRef w with
  | Some id =>
      {| handlerRef := handlerRef w; registeredRef := false;
         unregisterRef := unregisterRef w;
         localParticipant := unregister id <$> localParticipant w |}
  | None => w
  end.

(** What the other [useRpcHandler] hooks of the component do on the same
    participant between two steps of this one. Each of them registers a
    method of its own ([ClassroomInner] has seven, [useBoardRPC] four),
    and the closures they are handed remove their own registrations, so
    the registrations of the other methods may become any list [others],
    and [used] identities are taken from the supply. *)
Definition elsewhere (method : string) (others : list Registration)
    (used : nat) (w : Hook) : Hook :=
  {| handlerRef := handlerRef w; registeredRef := registeredRef w;
     unregisterRef := unregisterRef w;
     localParticipant :=
       (λ p, {| registrations :=
                  filter (λ r, reg_method r = method) (registrations p)
                  ++ filter (λ r, reg_method r ≠ method) others;
                fresh := fresh p + used |})
       <$> localParticipant w |}.

Definition bindings (method : string) (w : Hook) : list Registration :=
  match localParticipant w with
  | Some p => filter (λ r, reg_method r = method) (registrations p)
  | None => []
  end.

(** An inbound call: the transport runs the closure registered for the
    method, if there is one. The closure finds in [handlerRef] what the
    last render put there. *)
Definition deliver (method : string) (w : Hook) (raw : string)
    : option (Eff St string) :=
  match bindings method w with
  | [] => None
  | r :: _ => Some (reg_callback r (handlerRef w) raw)
  end.

(** What can happen to a mounted hook: a render with a new handler, a
    run of the effect (a registration attempt), a run of the cleanup, the
    session getting ready, and the other hooks acting on the session. *)
Inductive Event : Type :=
  | Render (handler : Handler)
  | Register
  | Cleanup
  | Connect
  | Elsewhere (others : list Registration) (used : nat).

Definition step (method : string) (w : Hook) (ev : Event) : Hook :=
  match ev with
  | Render handler => render handler w
  | Register => fst (effect method w)
  | Cleanup => cleanup w
  | Connect => connect w
  | Elsewhere others used => elsewhere method others used w
  end.

Definition run (method : string) (evs : list Event) (w : Hook) : Hook :=
  foldl (step method) w evs.

(** The handler of the last render. *)
Definition latest (handler : Handler) (evs : list Event) : Handler :=
  foldl (λ h ev, match ev with Render h' => h' | _ => h end) handler evs.

(** The states a hook can be in, whatever else is registered on the
    session. Before the session is ready nothing is registered and no
    closure is kept. On a ready session, while [registeredRef] is set the
    transport holds for the method the one registration whose closure
    [unregisterRef] keeps, and otherwise it holds none for the method. *)
Definition consistent (method : string) (w : Hook) : Prop :=
  match localParticipant w with
  | None => registeredRef w = false ∧ unregisterRef w = None
  | Some p =>
      if registeredRef w
      then ∃ id, unregisterRef w = Some id
                 ∧ filter (λ r, reg_method r = method) (registrations p)
                   = [{| reg_method := method; reg_id := id;
                         reg_callback := invocation |}]
      else filter (λ r, reg_method r = method) (registrations p) = []
  end.

End UseRpcHandler.

End Rpc.

(** * The highlight matcher: [splitTextOnHighlights] of [BoardPanel] *)

Module Highlight.

Record HighlightRule : Type := {
  color : string;
  style : string;
}.

Record HighlightWord : Type := {
  word : string;
  type : string;
  positions : option (list nat);
}.

Definition DEFAULT_RED : string := "#DC2626".
Definition SECONDARY_BLUE : string := "#0364CE".

Definition STYLE_MAP : gmap string HighlightRule :=
  list_to_map
    [ ("highlight", {| color := DEFAULT_RED; style := "highlight" |});
      ("underline", {| color := DEFAULT_RED; style := "underline" |});
      ("noun", {| color := DEFAULT_RED; style := "highlight" |});
      ("verb", {| color := DEFAULT_RED; style := "underline" |});
      ("secondary", {| color := SECONDARY_BLUE; style := "highlight" |});
      ("secondary-underline", {| color := SECONDARY_BLUE; style := "underline" |});
      ("concept", {| color := SECONDARY_BLUE; style := "highlight" |});
      ("blue", {| color := SECONDARY_BLUE; style := "highlight" |}) ].

Definition FALLBACK_STYLE : HighlightRule :=
  {| color := "#facc15"; style := "highlight" |}.

(** Strings are sequences of 8-bit characters here, and case mapping is
    that of the ASCII letters. *)
Definition is_upper (c : ascii) : bool :=
  (65 <=? nat_of_ascii c)%nat && (nat_of_ascii c <=? 90)%nat.

Definition is_lower (c : ascii) : bool :=
  (97 <=? nat_of_ascii c)%nat && (nat_of_ascii c <=? 122)%nat.

Definition lower_char (c : ascii) : ascii :=
  if is_upper c then ascii_of_nat (nat_of_ascii c + 32) else c.

Definition upper_char (c : ascii) : ascii :=
  if is_lower c then ascii_of_nat (nat_of_ascii c - 32) else c.

Fixpoint toLowerCase (s : string) : string :=
  match s with
  | EmptyString => EmptyString
  | String c s' => String (lower_char c) (toLowerCase s')
  end.

(** The characters of the class [[.*+?^${}()|[\]\\]]. *)
Definition is_syntax_char (c : ascii) : bool :=
  bool_decide (c ∈ list_ascii_of_string ".*+?^${}()|[]\").

(** [string.replace(/[.*+?^${}()|[\]\\]/g, "\\$&")] *)
Fixpoint escapeRegExp (s : string) : string :=
  match s with
  | EmptyString => EmptyString
  | String c s' =>
      if is_syntax_char c then String "\" (String c (escapeRegExp s'))
      else String c (escapeRegExp s')
  end.

(** [parts.join(sep)] *)
Fixpoint join (sep : string) (parts : list string) : string :=
  match parts with
  | [] => ""
  | [p] => p
  | p :: rest => p ++ sep ++ join sep rest
  end.

Definition pattern_source (highlights : list HighlightWord) : string :=
  "(" ++ join "|" (map (λ h, escapeRegExp (word h)) highlights) ++ ")".

(** [new RegExp(source, "gi")] for the sources built above: one capturing
    group of alternatives, each a run of literal characters in which a
    syntax character is literal only behind a backslash. The result lists
    the alternatives; any other source is outside this fragment. *)
Fixpoint parse_alternatives (s : string) (cur : string) : option (list string) :=
  match s with
  | EmptyString => None
  | String c s' =>
      if Ascii.eqb c "\" then
        match s' with
        | String e s'' =>
            if is_syntax_char e then parse_alternatives s'' (cur ++ String e "")
            else None
        | EmptyString => None
        end
      else if Ascii.eqb c "|" then cons cur <$> parse_alternatives s' ""
      else if Ascii.eqb c ")" then
        match s' with EmptyString => Some [cur] | _ => None end
      else if is_syntax_char c then None
      else parse_alternatives s' (cur ++ String c "")
  end.

Definition RegExp (source : string) : option (list string) :=
  match source with
  | String "(" body => parse_alternatives body ""
  | _ => None
  end.

(** Whether the literal [alt] matches at the head of [s]; under the [i]
    flag two characters match when their upper-case forms agree. *)
Fixpoint matches_prefix (alt s : string) : bool :=
  match alt, s with
  | EmptyString, _ => true
  | String a alt', String c s' =>
      Ascii.eqb (upper_char a) (upper_char c) && matches_prefix alt' s'
  | String _ _, EmptyString => false
  end.

(** A sticky match at the head of [s]: the alternatives are tried from
    left to right and the first that matches wins; the result is the
    length of the match. *)
Definition exec_at (alts : list string) (s : string) : option nat :=
  String.length <$> List.find (λ alt, matches_prefix alt s) alts.

(** The loop of [RegExp.prototype[Symbol.split]] on the text from
    position [q] on: [cur] is the text between [p] and [q], and [skip]
    counts the characters of a match still to step over. A match that
    ends at [p] is passed by; any other match closes the piece [cur],
    emits the captured group and moves [p] and [q] behind it. *)
Fixpoint split_loop (alts : list string) (s cur : string) (skip : nat)
    : list string :=
  match s with
  | EmptyString => [cur]
  | String c s' =>
      match skip with
      | S k => split_loop alts s' cur k
      | O =>
          match exec_at alts s with
          | None => split_loop alts s' (cur ++ String c "") 0
          | Some O =>
              match cur with
              | EmptyString => split_loop alts s' (String c "") 0
              | _ => cur :: "" :: split_loop alts s' (String c "") 0
              end
          | Some (S k) =>
              cur :: substring 0 (S k) s :: split_loop alts s' "" k
          end
      end
  end.

(** [text.split(pattern)] *)
Definition split (alts : list string) (text : string) : list string :=
  match text with
  | EmptyString =>
      match exec_at alts text with Some _ => [] | None => [text] end
  | _ => split_loop alts text "" 0
  end.

(** The inline style of a marked fragment; the last one is the underline
    whose [textDecorationColor] is [undefined]. *)
Inductive Css : Type :=
  | Highlighted (backgroundColor borderBottom : string)
  | Underlined (textDecorationColor : string)
  | Underlined_no_color.

(** An entry of the rendered array: the plain string, or a [motion.span]
    around it. *)
Inductive Part : Type :=
  | Plain (part : string)
  | Mark (part : string) (css : Css).

(** What [splitTextOnHighlights] returns: the text itself, or the array. *)
Inductive Rendered : Type :=
  | Text (text : string)
  | Parts (parts : list Part).

Definition css_of (rule : HighlightRule) : Css :=
  if String.eqb (style rule) "highlight"
  then Highlighted (color rule ++ "28") ("2px solid " ++ color rule)
  else Underlined (color rule).

(** [STYLE_MAP[key] || FALLBACK_STYLE] and the style built from it. A key
    the map does not have is looked up in [Object.prototype]. The keys
    are in lower case, and the names of [Object.prototype] in lower case
    are [constructor] and [__proto__]; what they name is truthy and has
    neither [style] nor [color]. *)
Definition style_for (key : string) : Css :=
  match STYLE_MAP !! key with
  | Some rule => css_of rule
  | None =>
      if bool_decide (key ∈ ["constructor"; "__proto__"])
      then Underlined_no_color
      else css_of FALLBACK_STYLE
  end.

Definition render_part (highlights : list HighlightWord) (part : string) : Part :=
  let lowerPart := toLowerCase part in
  match List.find (λ h, String.eqb (toLowerCase (word h)) lowerPart) highlights with
  | Some m => Mark part (style_for (toLowerCase (type m)))
  | None => Plain part
  end.

Definition splitTextOnHighlights (text : string) (highlights : list HighlightWord)
    : Outcome Rendered :=
  if (length highlights =? 0)%nat || String.eqb text ""
  then Returned (Text text)
  else
    match RegExp (pattern_source highlights) with
    | None => Raised SyntaxError
    | Some alts =>
        Returned (Parts (map (render_part highlights) (split alts text)))
    end.

(** [s.slice(n)] *)
Fixpoint string_drop (n : nat) (s : string) : string :=
  match n, s with
  | O, _ => s
  | S k, String _ s' => string_drop k s'
  | S _, EmptyString => EmptyString
  end.

(** The text a rendered result shows. *)
Definition part_text (p : Part) : string :=
  match p with Plain s => s | Mark s _ => s end.

Definition shown_text (r : Rendered) : string :=
  match r with
  | Text text => text
  | Parts parts => join "" (map part_text parts)
  end.

Definition is_mark (p : Part) : bool :=
  match p with Mark _ _ => true | Plain _ => false end.

Definition marks (r : Rendered) : list Part :=
  match r with
  | Text _ => []
  | Parts parts => List.filter is_mark parts
  end.

End Highlight.

(** * The signal extractor: [useAudioAnalyzer] *)

Module Audio.

(** What the hook may be handed as [trackSource]. The shapes are told
    apart by their fields: a track reference has
    [publication.track.mediaStreamTrack], a publication has
    [track.mediaStreamTrack], and a raw track is itself the media track. *)
Inductive Shape : Type :=
  | Undefined
  | MediaStreamTrack (id : nat)
  | Object (fields : gmap string Shape).

(** [v?.k] *)
Definition field (v : Shape) (k : string) : Shape :=
  match v with
  | Object fields => default Undefined (fields !! k)
  | Undefined | MediaStreamTrack _ => Undefined
  end.

Definition present (v : Shape) : bool :=
  match v with Undefined => false | _ => true end.

Definition instanceof_MediaStreamTrack (v : Shape) : bool :=
  match v with MediaStreamTrack _ => true | _ => false end.

(** The [useMemo] that resolves the media track. *)
Definition mediaStreamTrack (trackSource : Shape) : Shape :=
  if negb (present trackSource) then Undefined
  else if present (field (field (field trackSource "publication") "track")
                     "mediaStreamTrack")
  then field (field (field trackSource "publication") "track") "mediaStreamTrack"
  else if present (field (field trackSource "track") "mediaStreamTrack")
  then field (field trackSource "track") "mediaStreamTrack"
  else if instanceof_MediaStreamTrack trackSource then trackSource
  else Undefined.

(** The length [new Array(n)] accepts: an integer from 0 to 2^32 - 1. *)
Definition array_length (n : Q) : option nat :=
  let r := Qred n in
  if (Qden r =? 1)%positive && (0 <=? Qnum r)%Z && (Qnum r <? 2 ^ 32)%Z
  then Some (Z.to_nat (Qnum r)) else None.

(** [new Array(n).fill(0)] *)
Definition zero_filled (n : Q) : Outcome (list Q) :=
  match array_length n with
  | Some k => Returned (replicate k 0%Q)
  | None => Raised RangeError
  end.

Definition binCount (fftSize : Q) : Q := fftSize / 2.

(** The hook's state cell and refs. *)
Record State : Type := {
  data : list Q;
  rafRef : bool;
  sourceRef : bool;
  analyserRef : bool;
  audioContextRef : bool;
}.

(** What the browser supplies: whether it has an [AudioContext] class,
    and the bytes [getByteFrequencyData] writes on the first frame. *)
Record Platform : Type := {
  AudioContextClass : bool;
  frequencyData : list Z;
}.

(** The first render: [useState(() => new Array(binCount).fill(0))]. *)
Definition mount (fftSize : Q) : Outcome State :=
  match zero_filled (binCount fftSize) with
  | Returned zeros =>
      Returned {| data := zeros; rafRef := false; sourceRef := false;
                  analyserRef := false; audioContextRef := false |}
  | Raised e => Raised e
  end.

Definition setData (d : list Q) : Eff State () :=
  modify (λ st, {| data := d; rafRef := rafRef st; sourceRef := sourceRef st;
                   analyserRef := analyserRef st;
                   audioContextRef := audioContextRef st |}).

(** The value an [unsigned long] attribute takes from a number: the
    number truncated toward zero, modulo 2^32. *)
Definition to_unsigned_long (n : Q) : Z :=
  (Z.quot (Qnum n) (Zpos (Qden n)) mod 2 ^ 32)%Z.

(** What [analyser.fftSize = n] accepts: a power of two from 32 to 32768.
    Any other value raises an IndexSizeError. *)
Definition valid_fftSize (n : Z) : bool :=
  bool_decide (n ∈ [32; 64; 128; 256; 512; 1024; 2048; 4096; 8192; 16384;
                    32768]%Z).

(** [analyser.frequencyBinCount], half the size the analyser was given. *)
Definition frequencyBinCount (fftSize : Q) : nat :=
  Z.to_nat (to_unsigned_long fftSize / 2).

(** [dataArray] after [getByteFrequencyData(dataArray)]: a
    [Uint8Array(bufferLength)], zero at first, holding the analyser's
    bytes. *)
Definition dataArray (platform : Platform) (bufferLength : nat) : list Z :=
  take bufferLength (frequencyData platform ++ replicate bufferLength 0%Z).

(** The effect body, up to the first call of [update]. What the [try]
    block raises (the [MediaStream] constructor on a value that is not a
    track, the analyser on a size it does not accept) is caught and
    logged, and the effect returns. *)
Definition effect (platform : Platform) (trackSource : Shape) (fftSize : Q)
    : Eff State () :=
  match mediaStreamTrack trackSource with
  | Undefined =>
      zeros ← lift (zero_filled (binCount fftSize));
      setData zeros
  | track =>
      if negb (AudioContextClass platform) then mret ()
      else
        modify (λ st, {| data := data st; rafRef := rafRef st;
                         sourceRef := sourceRef st;
                         analyserRef := analyserRef st;
                         audioContextRef := true |});;
        if instanceof_MediaStreamTrack track then
          modify (λ st, {| data := data st; rafRef := rafRef st;
                           sourceRef := true;
                           analyserRef := analyserRef st;
                           audioContextRef := audioContextRef st |});;
          if valid_fftSize (to_unsigned_long fftSize) then
            let bufferLength := frequencyBinCount fftSize in
            let normalized :=
              map (λ val, inject_Z val / 255)%Q
                (dataArray platform bufferLength) in
            modify (λ st, {| data := normalized; rafRef := true;
                             sourceRef := sourceRef st; analyserRef := true;
                             audioContextRef := audioContextRef st |})
          else mret ()
        else mret ()
  end.

(** What the hook returns from a render. *)
Definition useAudioAnalyzer (st : State) : list Q := data st.

End Audio.

(** * Sample states and payloads *)

Module Samples.

Definition fox : JValue :=
  JObj (<["word" := JStr "fox"]> {[ "type" := JStr "noun" ]}).

(** A classroom in quiz mode with one highlight set and one hidden answer. *)
Definition classroom : Classroom.State :=
  {| Classroom.content := JStr "The quick brown fox";
     Classroom.highlights := JArr [fox];
     Classroom.focusedStudent := JNull;
     Classroom.viewMode := "cognitive_test";
     Classroom.cognitiveQuestion := JStr "Name a planet";
     Classroom.cognitiveAnswers :=
       [ {| Classroom.text := JStr "Mars"; Classroom.percentage := JNum 40;
            Classroom.revealed := false |} ];
     Classroom.teamScores := JObj ∅;
     Classroom.now := 0%N;
     Classroom.timers := [];
     Classroom.played := [] |}.

Definition board : Board.State :=
  {| Board.boardText := JStr "The quick brown fox";
     Board.boardHighlights := JArr [fox] |}.

Definition with_field (k : string) (v : JValue) : JValue := JObj {[ k := v ]}.

Definition cat_noun : Highlight.HighlightWord :=
  {| Highlight.word := "cat"; Highlight.type := "noun";
     Highlight.positions := None |}.

Definition empty_word : Highlight.HighlightWord :=
  {| Highlight.word := ""; Highlight.type := "noun";
     Highlight.positions := None |}.

End Samples.

(** * The classroom page as a whole: [ClassroomPage] and [CognitiveBoard] *)

Module ClassroomPage.
Import Classroom.

(** The initial [useState] values of [ClassroomPage]. *)
Definition initial : State :=
  {| content := JStr ("The quick brown fox jumps over the lazy dog. "
                      ++ "Programming is fun, and Artificial Intelligence "
                      ++ "helps us learn faster.");
     highlights := JArr [];
     focusedStudent := JNull;
     viewMode := "content";
     cognitiveQuestion := JStr "";
     cognitiveAnswers := [];
     teamScores :=
       JObj (<["Team Alpha" := JNum 0]>
               (<["Team Beta" := JNum 0]> {[ "Team Gamma" := JNum 0 ]}));
     now := 0%N;
     timers := [];
     played := [] |}.

(** What reaches the page: an inbound call of a method with its decoded
    payload, or the clock reaching a time. *)
Inductive Inbound : Type :=
  | Call (method : string) (payload : JValue)
  | Tick (t : N).

(** The handler registered for a method, if any. *)
Definition handler_of (method : string) : option (JValue → Eff State JValue) :=
  snd <$> List.find (λ r, String.eqb (fst r) method) rules.

(** One inbound event. What a handler raises goes back to the caller; the
    state it left stays. *)
Definition handle (st : State) (ev : Inbound) : State :=
  match ev with
  | Call method payload =>
      match handler_of method with
      | Some rule => snd (rule payload st)
      | None => st
      end
  | Tick t => advance t st
  end.

Definition run (evs : list Inbound) (st : State) : State :=
  foldl handle st evs.

(** The entry [start_cognitive_test] builds from one element of
    [payload.answers]. *)
Definition hidden_answer (a : JValue) : Eff State CognitiveAnswer :=
  t ← lift (get_prop a "text");
  p ← lift (get_prop a "percentage");
  mret {| text := t; percentage := p; revealed := false |}.

(** The parts of the state by concern: focus, quiz; the board's is
    [board_view]. *)
Definition focus_part (st : State) : JValue * list N :=
  (focusedStudent st, timers st).

Definition quiz_part (st : State) : JValue * list CognitiveAnswer :=
  (cognitiveQuestion st, cognitiveAnswers st).

(** [teamScores[name] || 0], the score [CognitiveBoard] passes to
    [TeamScore]. *)
Definition team_score (teamScores : JValue) (name : string) : Outcome JValue :=
  match get_prop teamScores name with
  | Returned v => Returned (if truthy v then v else JNum 0)
  | Raised e => Raised e
  end.

(** What every reachable state of the page satisfies. *)
Definition well_formed (st : State) : Prop :=
  (viewMode st = "content" ∨ viewMode st = "cognitive_test")
  ∧ truthy (content st) = true
  ∧ nullish (teamScores st) = false
  ∧ (focusedStudent st = JNull ∨ truthy (focusedStudent st) = true).

(** The panel [ClassroomInner] renders on the left. *)
Inductive Panel : Type := CognitiveBoardPanel | ContentPanelPanel.

Definition panel (st : State) : Panel :=
  if String.eqb (viewMode st) "cognitive_test"
  then CognitiveBoardPanel else ContentPanelPanel.

End ClassroomPage.

(** * What the matcher's fragments are *)

Module Matching.
Import Highlight.

(** No alternative matches anywhere inside [p]. *)
Definition clean (alts : list string) (p : string) : Prop :=
  ∀ alt k, alt ∈ alts → matches_prefix alt (string_drop k p) = false.

(** [sep] is one of the alternatives, up to case. *)
Definition is_term (alts : list string) (sep : string) : Prop :=
  ∃ alt, alt ∈ alts ∧ toLowerCase sep = toLowerCase alt.

(** The shape of what [split] returns for alternatives that are not
    empty: a clean piece, then a matched separator and a clean piece any
    number of times. *)
Fixpoint pieces_and_separators (alts : list string) (l : list string) : Prop :=
  match l with
  | [p] => clean alts p
  | p :: sep :: rest =>
      clean alts p ∧ is_term alts sep ∧ pieces_and_separators alts rest
  | [] => False
  end.

(** The same shape after rendering: plain and marked fragments take
    turns, and a plain one comes first and last. *)
Fixpoint alternates (parts : list Part) : bool :=
  match parts with
  | [Plain _] => true
  | Plain _ :: Mark _ _ :: rest => alternates rest
  | _ => false
  end.

(** The fragments of a rendered result; the unsplit text has none. *)
Definition fragments (r : Rendered) : list Part :=
  match r with
  | Text _ => []
  | Parts parts => parts
  end.

(** In the loop of [split]: no alternative matches at any position of the
    piece [cur] that is being collected, [s] being the text behind it. *)
Fixpoint no_match_in (alts : list string) (cur s : string) : Prop :=
  match cur with
  | EmptyString => True
  | String _ cur' => exec_at alts (cur ++ s) = None ∧ no_match_in alts cur' s
  end.

(** A string of ASCII characters only. On such strings [toLowerCase] and
    the case folding of the [i] flag are the platform's; beyond ASCII the
    platform maps more letters than the model does. *)
Definition ascii_string (s : string) : bool :=
  forallb (λ c, (nat_of_ascii c <? 128)%nat) (list_ascii_of_string s).

End Matching.

(** * The classroom's content panel: [ContentPanel] *)

Module ContentPanel.
Import Highlight.

(** The panel's own rule shape; its words are [HighlightWord]s. *)
Record HighlightRule : Type := {
  type : string;
  color : string;
  style : string;
}.

(** [\w] *)
Definition is_word_char (c : ascii) : bool :=
  ((48 <=? nat_of_ascii c)%nat && (nat_of_ascii c <=? 57)%nat)
  || is_upper c || is_lower c || Ascii.eqb c "_".

(** [\s], among the 8-bit characters: tab, line feed, vertical tab, form
    feed, carriage return, space and no-break space. *)
Definition is_space_char (c : ascii) : bool :=
  bool_decide (nat_of_ascii c ∈ [9; 10; 11; 12; 13; 32; 160]%nat).

(** [word.replace(/[^\w\s]/gi, "")] *)
Fixpoint strip_punctuation (s : string) : string :=
  match s with
  | EmptyString => EmptyString
  | String c s' =>
      if is_word_char c || is_space_char c
      then String c (strip_punctuation s')
      else strip_punctuation s'
  end.

Definition cleanWord (w : string) : string := toLowerCase (strip_punctuation w).

(** [content.split(" ")]: [cur] is the word being read. *)
Fixpoint split_on_space (s cur : string) : list string :=
  match s with
  | EmptyString => [cur]
  | String c s' =>
      if Ascii.eqb c " " then cur :: split_on_space s' ""
      else split_on_space s' (cur ++ String c "")
  end.

Definition getStyleForType (rules : list HighlightRule) (t : string)
    : option HighlightRule :=
  List.find (λ r, String.eqb (type r) (toLowerCase t)) rules.

(** A rendered word: the styled span with its inline style, which is
    empty for a rule that is neither highlight nor underline, or the
    plain span. *)
Inductive Span : Type :=
  | Styled (w : string) (css : option Css)
  | Unstyled (w : string).

Definition renderWord (highlights : list HighlightWord)
    (rules : list HighlightRule) (w : string) : Span :=
  let cleanWord := cleanWord w in
  let highlight :=
    List.find (λ h, String.eqb (toLowerCase (word h)) cleanWord) highlights in
  let rule :=
    match highlight with
    | Some h => getStyleForType rules (Highlight.type h)
    | None => None
    end in
  match rule with
  | Some rule =>
      Styled w
        (if String.eqb (style rule) "highlight"
         then Some (Highlighted (color rule ++ "28") ("2px solid " ++ color rule))
         else if String.eqb (style rule) "underline"
         then Some (Underlined (color rule))
         else None)
  | None => Unstyled w
  end.

Inductive View : Type :=
  | Waiting
  | Words (spans : list Span).

Definition ContentPanel (content : string) (highlights : list HighlightWord)
    (rules : list HighlightRule) : View :=
  if String.eqb content "" then Waiting
  else Words (map (renderWord highlights rules) (split_on_space content "")).

Definition span_word (s : Span) : string :=
  match s with Styled w _ => w | Unstyled w => w end.

(** A word this panel can match at all: made of word characters and
    whitespace other than the blank. *)
Definition matchable (w : string) : bool :=
  forallb (λ c, (is_word_char c || is_space_char c) && negb (Ascii.eqb c " "))
    (list_ascii_of_string w).

(** A word without a blank in it. *)
Definition no_blank (w : string) : bool :=
  forallb (λ c, negb (Ascii.eqb c " ")) (list_ascii_of_string w).

(** The number of blanks in a string. *)
Definition blanks (s : string) : nat :=
  length (List.filter (λ c, Ascii.eqb c " ") (list_ascii_of_string s)).

(** The rules [ClassroomInner] passes to the panel. *)
Definition classroom_rules : list HighlightRule :=
  [ {| type := "noun"; color := "#ff4d00"; style := "highlight" |};
    {| type := "pronoun"; color := "#afafaf"; style := "underline" |};
    {| type := "adjective"; color := "#ff8855"; style := "highlight" |};
    {| type := "verb"; color := "#ffc3aa"; style := "underline" |} ].

End ContentPanel.

(** * The recursion over rendered content: [highlightContent] *)

Module BoardTree.
Import Highlight.

(** A React node as [highlightContent] tells them apart: a string, an
    array, an element with its [props.children], or anything else
    (numbers, booleans, null and undefined). An element keeps its type
    and, for the spans the matcher builds, its inline style. *)
Inductive ReactNode : Type :=
  | RString (s : string)
  | RNumber (n : Z)
  | RBool (b : bool)
  | RNull
  | RArray (items : list ReactNode)
  | RElement (type : string) (css : option Css) (children : ReactNode).

(** ToBoolean of [element.props.children]. *)
Definition node_truthy (n : ReactNode) : bool :=
  match n with
  | RString s => negb (String.eqb s "")
  | RNumber n => negb (n =? 0)%Z
  | RBool b => b
  | RNull => false
  | RArray _ | RElement _ _ _ => true
  end.

(** What [splitTextOnHighlights] returns, as a node: the string, or the
    array of strings and [motion.span] elements. *)
Definition part_node (p : Part) : ReactNode :=
  match p with
  | Plain part => RString part
  | Mark part css => RElement "motion.span" (Some css) (RString part)
  end.

Definition rendered_node (r : Rendered) : ReactNode :=
  match r with
  | Text text => RString text
  | Parts parts => RArray (map part_node parts)
  end.

Fixpoint highlightContent (children : ReactNode)
    (highlights : list HighlightWord) : Outcome ReactNode :=
  match children with
  | RString s =>
      match splitTextOnHighlights s highlights with
      | Returned r => Returned (rendered_node r)
      | Raised e => Raised e
      end
  | RArray items =>
      match
        (fix each (l : list ReactNode) : Outcome (list ReactNode) :=
           match l with
           | [] => Returned []
           | child :: l' =>
               match highlightContent child highlights with
               | Returned r =>
                   match each l' with
                   | Returned rs =>
                       Returned (RElement "React.Fragment" None r :: rs)
                   | Raised e => Raised e
                   end
               | Raised e => Raised e
               end
           end) items
      with
      | Returned rs => Returned (RArray rs)
      | Raised e => Raised e
      end
  | RElement type css props_children =>
      if node_truthy props_children then
        match highlightContent props_children highlights with
        | Returned r => Returned (RElement type css r)
        | Raised e => Raised e
        end
      else Returned children
  | RNumber _ | RBool _ | RNull => Returned children
  end.

(** The string leaves of a node, in order, put together. *)
Fixpoint string_leaves (n : ReactNode) : string :=
  match n with
  | RString s => s
  | RArray items =>
      (fix all (l : list ReactNode) : string :=
         match l with
         | [] => ""
         | child :: l' => string_leaves child ++ all l'
         end) items
  | RElement _ _ props_children => string_leaves props_children
  | RNumber _ | RBool _ | RNull => ""
  end.

(** The elements of a node that are not of the given types, in order,
    each with its type and style. *)
Fixpoint elements_but (skip : list string) (n : ReactNode)
    : list (string * option Css) :=
  match n with
  | RArray items =>
      (fix all (l : list ReactNode) : list (string * option Css) :=
         match l with
         | [] => []
         | child :: l' => (elements_but skip child ++ all l')%list
         end) items
  | RElement type css props_children =>
      ((if bool_decide (type ∈ skip) then [] else [(type, css)])
       ++ elements_but skip props_children)%list
  | RString _ | RNumber _ | RBool _ | RNull => []
  end.

End BoardTree.

(** * The talk page's visualizer: [TalkVisualizer] *)

Module Visualizer.

Definition isAgentSpeaking (state : string) : bool := String.eqb state "speaking".

Definition isListening (state : string) : bool :=
  String.eqb state "listening" || String.eqb state "idle".

(** The levels of the dotted bar matrix, which has 28 columns. *)
Definition activeLevels (state : string) (agentLevels micLevels : list Q)
    : list Q :=
  if isAgentSpeaking state then take 28 agentLevels
  else if isListening state then reverse (take 28 micLevels)
  else replicate 28 0%Q.

End Visualizer.

(** * The talk page's transcript log: [useTranscript] *)

Module Transcript.

Inductive Sender : Type := agent | user.

(** A transcription segment as the hook reads it. *)
Record Segment : Type := { text : string; final : bool }.

(** A [TranscriptEntry]; its fields are [text], [sender] and [id]. *)
Record TranscriptEntry : Type := {
  entry_text : string;
  entry_sender : Sender;
  entry_id : string;
}.

(** The state cell and the three refs. *)
Record State : Type := {
  transcriptLog : list TranscriptEntry;
  entryCounter : nat;
  lastAgentLen : nat;
  lastUserLen : nat;
}.

Definition initial : State :=
  {| transcriptLog := []; entryCounter := 0; lastAgentLen := 0;
     lastUserLen := 0 |}.

(** The prefix of an id: [`agent-${n}`] or [`user-${n}`]. *)
Definition id_prefix (who : Sender) : string :=
  match who with agent => "agent-" | user => "user-" end.

(** [`${n}`] for a counter value. *)
Definition decimal (n : nat) : string :=
  DecimalString.NilEmpty.string_of_uint (Nat.to_uint n).

(** One [for] loop, over the segments from the last seen length on. It
    returns the entries pushed and the counter it leaves. *)
Fixpoint scan (who : Sender) (segments : list Segment) (counter : nat)
    : list TranscriptEntry * nat :=
  match segments with
  | [] => ([], counter)
  | seg :: rest =>
      if negb (String.eqb (text seg) "") && final seg then
        let '(entries, counter') := scan who rest (S counter) in
        ({| entry_text := text seg; entry_sender := who;
            entry_id := id_prefix who ++ decimal counter |} :: entries,
         counter')
      else scan who rest counter
  end.

(** One [if (segments.length > last.current) { for ...; last.current = ... }]
    block: the entries pushed, the counter and the new last seen length. *)
Definition block (who : Sender) (segments : list Segment) (last counter : nat)
    : list TranscriptEntry * nat * nat :=
  if (last <? length segments)%nat then
    let '(entries, counter') := scan who (drop last segments) counter in
    (entries, counter', length segments)
  else ([], counter, last).

(** The effect that runs when either transcription array changes. *)
Definition effect (agentTranscriptions userSegments : list Segment)
    (st : State) : State :=
  let '(fromAgent, counter1, agentLen) :=
    block agent agentTranscriptions (lastAgentLen st) (entryCounter st) in
  let '(fromUser, counter2, userLen) :=
    block user userSegments (lastUserLen st) counter1 in
  let newEntries := (fromAgent ++ fromUser)%list in
  {| transcriptLog :=
       if (0 <? length newEntries)%nat
       then (transcriptLog st ++ newEntries)%list else transcriptLog st;
     entryCounter := counter2;
     lastAgentLen := agentLen;
     lastUserLen := userLen |}.

(** The effect run once for each pair of arrays the hook is handed. *)
Definition run (inputs : list (list Segment * list Segment)) (st : State)
    : State :=
  foldl (λ st '(agentTranscriptions, userSegments),
           effect agentTranscriptions userSegments st) st inputs.

(** The segments an entry of sender [who] may come from. *)
Definition unseen (who : Sender) (agentTranscriptions userSegments : list Segment)
    (st : State) : list Segment :=
  match who with
  | agent => drop (lastAgentLen st) agentTranscriptions
  | user => drop (lastUserLen st) userSegments
  end.

(** The ids in the log are distinct and all number below the counter. *)
Definition numbered (st : State) : Prop :=
  NoDup (entry_id <$> transcriptLog st)
  ∧ Forall (λ e, ∃ who n, entry_id e = id_prefix who ++ decimal n
                          ∧ (n < entryCounter st)%nat) (transcriptLog st).

End Transcript.

(** Unfolds a handler down to its property reads. *)
Ltac handler_steps :=
  cbv [mbind mret mthrow eff_mbind eff_mret eff_mthrow eff_bind eff_ret
       eff_throw lift modify].

(** Closes a goal about a rule that reads one field and then only calls
    setters. *)
Ltac one_field_rule k :=
  handler_steps;
  match goal with
  | |- context [get_prop ?p k] =>
      destruct (get_prop p k) as [?v|?e]; [destruct (truthy v)|]
  end; repeat split.

(** * Properties of the reconciler rules *)

Section PropertyReads.
Implicit Types (payload v : JValue) (k : string).

Lemma get_prop_own payload k :
  nullish payload = false →
  get_prop payload k = Returned (default JUndefined (own_field payload k)).
Proof. destruct payload; simpl; intros; congruence. Qed.

Lemma own_field_not_nullish payload k v :
  own_field payload k = Some v → nullish payload = false.
Proof. destruct payload; simpl; congruence. Qed.

Lemma get_prop_present payload k v :
  own_field payload k = Some v → get_prop payload k = Returned v.
Proof.
  intros H. rewrite (get_prop_own _ _ (own_field_not_nullish _ _ _ H)).
  now rewrite H.
Qed.

Lemma get_prop_absent payload k :
  nullish payload = false → own_field payload k = None →
  get_prop payload k = Returned JUndefined.
Proof. intros Hn H. rewrite (get_prop_own _ _ Hn). now rewrite H. Qed.

Lemma get_prop_nullish payload k :
  nullish payload = true → get_prop payload k = Raised TypeError.
Proof. destruct payload; simpl; congruence. Qed.
End PropertyReads.

Section ReconcilerRules.
Implicit Types (payload : JValue) (st : Classroom.State) (bst : Board.State).

(** ** highlight_text *)

(** C1, as stated, fails: a payload without [words] does not clear the
    highlights; both pages keep the state they had. *)
Lemma highlight_text_absent_words_keeps_highlights :
  own_field (JObj ∅) "words" = None
  ∧ Classroom.highlights
      (snd (Classroom.highlight_text (JObj ∅) Samples.classroom))
    = JArr [Samples.fox]
  ∧ Board.boardHighlights (snd (Board.highlight_text (JObj ∅) Samples.board))
    = JArr [Samples.fox]
  ∧ JArr [Samples.fox] ≠ JArr [].
Proof. repeat split; try reflexivity. discriminate. Qed.

(** C1 (amended). On both pages, a payload whose [words] is present and
    truthy (every array is, the empty one included) replaces the
    highlight set by exactly that value, so an empty [words] array
    clears the highlights; a payload whose [words] is absent or falsy
    leaves the whole state as it was. *)
Theorem highlight_text_replaces_wholesale payload st bst :
  (∀ words, own_field payload "words" = Some words → truthy words = true →
     Classroom.highlights (snd (Classroom.highlight_text payload st)) = words
     ∧ Board.boardHighlights (snd (Board.highlight_text payload bst)) = words)
  ∧ (own_field payload "words" = Some (JArr []) →
     Classroom.highlights (snd (Classroom.highlight_text payload st)) = JArr []
     ∧ Board.boardHighlights (snd (Board.highlight_text payload bst)) = JArr [])
  ∧ (nullish payload = false →
     (∀ words, own_field payload "words" = Some words → truthy words = false) →
     Classroom.highlight_text payload st = (Returned JUndefined, st)
     ∧ Board.highlight_text payload bst = (Returned (JStr success_text), bst)).
Proof.
  assert (Hset : ∀ words, own_field payload "words" = Some words →
            truthy words = true →
            Classroom.highlights (snd (Classroom.highlight_text payload st)) = words
            ∧ Board.boardHighlights (snd (Board.highlight_text payload bst)) = words).
  { intros words H Ht.
    unfold Classroom.highlight_text, Board.highlight_text. handler_steps.
    rewrite !(get_prop_present _ _ _ H). rewrite Ht. split; reflexivity. }
  split; [exact Hset|]. split.
  - intros H. now apply Hset.
  - intros Hn Hfalsy.
    unfold Classroom.highlight_text, Board.highlight_text. handler_steps.
    rewrite !(get_prop_own _ _ Hn).
    destruct (own_field payload "words") as [words|] eqn:E; simpl.
    + rewrite (Hfalsy words eq_refl). destruct bst; split; reflexivity.
    + destruct bst; split; reflexivity.
Qed.

Lemma highlight_text_replaces_wholesale_witness :
  (Classroom.highlights
     (snd (Classroom.highlight_text
             (Samples.with_field "words" (JArr [JStr "dog"])) Samples.classroom))
   = JArr [JStr "dog"]
   ∧ Board.boardHighlights
       (snd (Board.highlight_text
               (Samples.with_field "words" (JArr [JStr "dog"])) Samples.board))
     = JArr [JStr "dog"])
  ∧ Classroom.highlight_text (JObj ∅) Samples.classroom
    = (Returned JUndefined, Samples.classroom).
Proof.
  split.
  - apply (proj1 (highlight_text_replaces_wholesale
                    (Samples.with_field "words" (JArr [JStr "dog"]))
                    Samples.classroom Samples.board)); reflexivity.
  - apply (proj2 (proj2 (highlight_text_replaces_wholesale
                           (JObj ∅) Samples.classroom Samples.board))).
    + reflexivity.
    + intros words H. vm_compute in H. discriminate.
Defined.

(** ** update_content *)

(** C4, as stated, fails on the classroom page: an empty [text] is
    present but falsy, and the rule leaves content, highlights and view
    mode as they were. *)
Lemma update_content_empty_text_ignored :
  own_field (Samples.with_field "text" (JStr "")) "text" = Some (JStr "")
  ∧ Classroom.update_content (Samples.with_field "text" (JStr "")) Samples.classroom
    = (Returned JUndefined, Samples.classroom)
  ∧ Classroom.content Samples.classroom ≠ JStr ""
  ∧ Classroom.highlights Samples.classroom ≠ JArr []
  ∧ Classroom.viewMode Samples.classroom ≠ "content".
Proof. repeat split; try reflexivity; discriminate. Qed.

(** C4 (amended). The classroom rule, for every payload whose [text] is
    present and truthy, replaces the content by it, empties the highlight
    set and switches the view to "content". The talk-page rule, which has no
    view mode, replaces the board text and empties the highlight set for
    every payload whose [text] is present, the empty string included. On
    both pages every call that changes the content leaves the highlight
    set equal to []. *)
Theorem update_content_replaces_and_clears payload st bst :
  (∀ t, own_field payload "text" = Some t → truthy t = true →
     Classroom.content (snd (Classroom.update_content payload st)) = t
     ∧ Classroom.highlights (snd (Classroom.update_content payload st)) = JArr []
     ∧ Classroom.viewMode (snd (Classroom.update_content payload st)) = "content")
  ∧ (∀ t, own_field payload "text" = Some t → t ≠ JUndefined →
     Board.boardText (snd (Board.update_content payload bst)) = t
     ∧ Board.boardHighlights (snd (Board.update_content payload bst)) = JArr [])
  ∧ (Classroom.content (snd (Classroom.update_content payload st))
       ≠ Classroom.content st →
     Classroom.highlights (snd (Classroom.update_content payload st)) = JArr [])
  ∧ (Board.boardText (snd (Board.update_content payload bst))
       ≠ Board.boardText bst →
     Board.boardHighlights (snd (Board.update_content payload bst)) = JArr []).
Proof.
  repeat apply conj.
  - intros t H Ht. unfold Classroom.update_content. handler_steps.
    rewrite !(get_prop_present _ _ _ H). rewrite Ht. repeat split; reflexivity.
  - intros t H Ht. unfold Board.update_content. handler_steps.
    rewrite !(get_prop_present _ _ _ H). destruct t; try congruence; split; reflexivity.
  - unfold Classroom.update_content. handler_steps.
    destruct (nullish payload) eqn:Hn.
    + rewrite (get_prop_nullish _ _ Hn). simpl. congruence.
    + rewrite !(get_prop_own _ _ Hn).
      destruct (truthy (default JUndefined (own_field payload "text")));
        simpl; congruence.
  - unfold Board.update_content. handler_steps.
    destruct (nullish payload) eqn:Hn.
    + rewrite (get_prop_nullish _ _ Hn). simpl. congruence.
    + rewrite !(get_prop_own _ _ Hn).
      destruct (Board.is_defined (default JUndefined (own_field payload "text")));
        simpl; congruence.
Qed.

Lemma update_content_replaces_and_clears_witness :
  (Classroom.content
     (snd (Classroom.update_content
             (Samples.with_field "text" (JStr "Newton")) Samples.classroom))
   = JStr "Newton"
   ∧ Classroom.highlights
       (snd (Classroom.update_content
               (Samples.with_field "text" (JStr "Newton")) Samples.classroom))
     = JArr []
   ∧ Classroom.viewMode
       (snd (Classroom.update_content
               (Samples.with_field "text" (JStr "Newton")) Samples.classroom))
     = "content")
  ∧ (Board.boardText
       (snd (Board.update_content (Samples.with_field "text" (JStr "")) Samples.board))
     = JStr ""
     ∧ Board.boardHighlights
         (snd (Board.update_content (Samples.with_field "text" (JStr "")) Samples.board))
       = JArr []).
Proof.
  split.
  - apply (proj1 (update_content_replaces_and_clears
                    (Samples.with_field "text" (JStr "Newton"))
                    Samples.classroom Samples.board)); reflexivity.
  - apply (proj1 (proj2 (update_content_replaces_and_clears
                           (Samples.with_field "text" (JStr ""))
                           Samples.classroom Samples.board)));
      [reflexivity | discriminate].
Defined.

(** C10, as stated, fails: on the payload with the empty [text] the
    talk-page rule clears the board while the classroom rule keeps its
    content and highlights. *)
Lemma update_content_rules_differ :
  Classroom.board_view Samples.classroom = Board.board_view Samples.board
  ∧ Classroom.board_view
      (snd (Classroom.update_content
              (Samples.with_field "text" (JStr "")) Samples.classroom))
    ≠ Board.board_view
        (snd (Board.update_content
                (Samples.with_field "text" (JStr "")) Samples.board)).
Proof. split; [reflexivity | vm_compute; discriminate]. Qed.

(** C10 (amended). From equal content and highlights, the two
    [update_content] rules end in equal content and highlights on every
    payload whose [text], when present, is truthy. *)
Theorem update_content_rules_agree payload st bst :
  Classroom.board_view st = Board.board_view bst →
  (∀ t, own_field payload "text" = Some t → truthy t = true) →
  Classroom.board_view (snd (Classroom.update_content payload st))
  = Board.board_view (snd (Board.update_content payload bst)).
Proof.
  intros Hview Htext.
  unfold Classroom.update_content, Board.update_content. handler_steps.
  destruct (nullish payload) eqn:Hn.
  - rewrite !(get_prop_nullish _ _ Hn). exact Hview.
  - rewrite !(get_prop_own _ _ Hn).
    destruct (own_field payload "text") as [t|] eqn:E; simpl.
    + rewrite (Htext t eq_refl).
      assert (Board.is_defined t = true) as ->
        by (specialize (Htext t eq_refl); destruct t; done).
      reflexivity.
    + exact Hview.
Qed.

Lemma update_content_rules_agree_witness :
  Classroom.board_view
    (snd (Classroom.update_content
            (Samples.with_field "text" (JStr "Newton")) Samples.classroom))
  = Board.board_view
      (snd (Board.update_content
              (Samples.with_field "text" (JStr "Newton")) Samples.board)).
Proof.
  apply update_content_rules_agree.
  - reflexivity.
  - intros t H. vm_compute in H. injection H as <-. reflexivity.
Defined.

(** ** Payloads without the field a rule needs *)

(** On the payload [null], which [JSON.parse] yields for the text "null",
    every rule that reads a field raises a TypeError; the state is left as
    it was. *)
Lemma null_payload_raises st bst :
  Forall (λ rule : JValue → Eff Classroom.State JValue,
            rule JNull st = (Raised TypeError, st))
    [ Classroom.highlight_text; Classroom.update_content;
      Classroom.show_student_focus; Classroom.start_cognitive_test;
      Classroom.reveal_answer; Classroom.update_scores ]
  ∧ Forall (λ rule : JValue → Eff Board.State JValue,
              rule JNull bst = (Raised TypeError, bst))
      [ Board.update_content; Board.highlight_text ].
Proof. split; repeat constructor. Qed.

(** [answers] that is present but not an array makes
    [start_cognitive_test] raise; the question has been replaced by
    then. *)
Lemma start_cognitive_test_answers_not_array :
  let payload :=
    JObj (<["question" := JStr "Name a fruit"]> {[ "answers" := JNum 5 ]}) in
  fst (Classroom.start_cognitive_test payload Samples.classroom) = Raised TypeError
  ∧ Classroom.cognitiveQuestion
      (snd (Classroom.start_cognitive_test payload Samples.classroom))
    = JStr "Name a fruit".
Proof. split; reflexivity. Qed.


(** ** show_student_focus *)

(** Each call with a truthy [studentName] focuses the student and queues
    one more auto-clear, due 5000 ms from now; the ones already queued
    stay. *)
Lemma show_student_focus_queues payload name st :
  own_field payload "studentName" = Some name → truthy name = true →
  Classroom.focusedStudent (snd (Classroom.show_student_focus payload st)) = name
  ∧ Classroom.timers (snd (Classroom.show_student_focus payload st))
    = (Classroom.timers st ++ [(Classroom.now st + 5000)%N])%list.
Proof.
  intros H Ht. unfold Classroom.show_student_focus. handler_steps.
  rewrite !(get_prop_present _ _ _ H). rewrite Ht. split; reflexivity.
Qed.

(** C2: focus "Karan" at time 0 and "Meera" at time 3000. Two auto-clears
    are then pending, due at 5000 and at 8000. The first one fires at 5000
    and clears the focus on Meera, 2000 ms after it was set; the second
    fires at 8000: the callback runs twice. *)
Theorem focus_timers_stack :
  let s1 :=
    snd (Classroom.show_student_focus
           (Samples.with_field "studentName" (JStr "Karan")) Samples.classroom) in
  let s2 :=
    snd (Classroom.show_student_focus
           (Samples.with_field "studentName" (JStr "Meera"))
           (Classroom.advance 3000 s1)) in
  Classroom.focusedStudent s2 = JStr "Meera"
  ∧ Classroom.timers s2 = [5000%N; 8000%N]
  ∧ Classroom.due_by 5000 s2 = [5000%N]
  ∧ Classroom.focusedStudent (Classroom.advance 5000 s2) = JNull
  ∧ Classroom.timers (Classroom.advance 5000 s2) = [8000%N]
  ∧ Classroom.due_by 8000 (Classroom.advance 5000 s2) = [8000%N].
Proof. repeat split. Qed.

(** ** reveal_answer *)

Lemma Qred_integer (z : Z) : Qred (inject_Z z) = inject_Z z.
Proof.
  pose proof (Qred_correct (inject_Z z)) as Heq.
  pose proof (gcd_Qred (inject_Z z)) as Hgcd.
  destruct (Qred (inject_Z z)) as [n d].
  unfold Qeq, inject_Z in *. simpl in *.
  assert (Z.pos d = 1%Z) as Hd.
  { rewrite Z.mul_1_r in Heq. subst n.
    rewrite Z.gcd_comm, (Z.mul_comm z), Z.gcd_mul_diag_l in Hgcd by lia.
    exact Hgcd. }
  injection Hd as ->. f_equal. lia.
Qed.

(** [arr[q]] names position [i] exactly when [q] is the integer [i]. *)
Lemma array_index_Some (q : Q) (i : nat) :
  array_index q = Some i ↔ (q == inject_Z (Z.of_nat i))%Q.
Proof.
  unfold array_index. split.
  - destruct (Qred q) as [n d] eqn:E. cbn [Qnum Qden].
    destruct (Pos.eqb_spec d 1) as [->|]; simpl; [|discriminate].
    destruct (Z.leb_spec 0 n); simpl; [|discriminate].
    intros Hi. injection Hi as <-. rewrite <- (Qred_correct q), E.
    unfold Qeq, inject_Z. simpl. lia.
  - intros H. rewrite (Qred_complete _ _ H), Qred_integer. simpl.
    destruct (Z.leb_spec 0 (Z.of_nat i)); [|lia].
    now rewrite Nat2Z.id.
Qed.

(** C8. A [reveal_answer] call whose [index] is a number never raises.
    When the number is a position of the answers array, the answer at that
    position becomes revealed and every other position keeps its entry;
    when it is not (too large, negative or fractional), the answers are
    left as they were. *)
Theorem reveal_answer_by_index payload (q : Q) st :
  own_field payload "index" = Some (JNum q) →
  fst (Classroom.reveal_answer payload st) = Returned JUndefined
  ∧ (∀ i a, array_index q = Some i →
       Classroom.cognitiveAnswers st !! i = Some a →
       Classroom.cognitiveAnswers (snd (Classroom.reveal_answer payload st)) !! i
       = Some {| Classroom.text := Classroom.text a;
                 Classroom.percentage := Classroom.percentage a;
                 Classroom.revealed := true |}
       ∧ ∀ j, j ≠ i →
           Classroom.cognitiveAnswers (snd (Classroom.reveal_answer payload st)) !! j
           = Classroom.cognitiveAnswers st !! j)
  ∧ ((∀ i, array_index q = Some i →
        (length (Classroom.cognitiveAnswers st) ≤ i)%nat) →
     Classroom.cognitiveAnswers (snd (Classroom.reveal_answer payload st))
     = Classroom.cognitiveAnswers st).
Proof.
  intros H. unfold Classroom.reveal_answer. handler_steps.
  rewrite !(get_prop_present _ _ _ H). simpl. unfold Classroom.reveal_at.
  repeat apply conj.
  - reflexivity.
  - intros i a Hi Ha. rewrite Hi, Ha. split.
    + apply list_lookup_insert_eq. now apply lookup_lt_Some in Ha.
    + intros j Hj. now apply list_lookup_insert_ne.
  - intros Hout. destruct (array_index q) as [i|]; [|reflexivity].
    now rewrite (lookup_ge_None_2 _ _ (Hout i eq_refl)).
Qed.

Lemma reveal_answer_by_index_witness :
  Classroom.cognitiveAnswers
    (snd (Classroom.reveal_answer (Samples.with_field "index" (JNum 0))
            Samples.classroom)) !! 0%nat
  = Some {| Classroom.text := JStr "Mars"; Classroom.percentage := JNum 40;
            Classroom.revealed := true |}
  ∧ Classroom.cognitiveAnswers
      (snd (Classroom.reveal_answer (Samples.with_field "index" (JNum 7))
              Samples.classroom))
    = Classroom.cognitiveAnswers Samples.classroom.
Proof.
  split.
  - apply (proj1 (proj2 (reveal_answer_by_index
                           (Samples.with_field "index" (JNum 0)) 0
                           Samples.classroom eq_refl)) 0%nat _ eq_refl eq_refl).
  - apply (proj2 (proj2 (reveal_answer_by_index
                           (Samples.with_field "index" (JNum 7)) 7
                           Samples.classroom eq_refl))).
    intros i Hi. vm_compute in Hi. injection Hi as <-. simpl. lia.
Defined.

End ReconcilerRules.

(** * Properties of the procedure registry *)

Section Registry.
Context {St : Type}.
Variable JSON_parse : string → option JValue.
Variable JSON_stringify : JValue → string.
Implicit Types (w : @Rpc.Hook St) (method : string) (evs : list (@Rpc.Event St)).

Lemma filter_swap {A : Type} (P Q : A → Prop) `{!∀ x, Decision (P x)}
    `{!∀ x, Decision (Q x)} (l : list A) :
  filter P (filter Q l) = filter Q (filter P l).
Proof.
  induction l as [|x l IH]; [reflexivity|].
  rewrite !filter_cons.
  destruct (decide (Q x)), (decide (P x)); rewrite ?filter_cons;
    repeat case_decide; try tauto; now rewrite IH.
Qed.

Lemma filter_complement {A : Type} (P : A → Prop) `{!∀ x, Decision (P x)}
    (l : list A) :
  filter P (filter (λ x, ¬ P x) l) = [].
Proof.
  induction l as [|x l IH]; [reflexivity|].
  rewrite filter_cons. destruct (decide (¬ P x)) as [Hn|Hn]; [|exact IH].
  now rewrite filter_cons_False.
Qed.

Lemma filter_twice {A : Type} (P : A → Prop) `{!∀ x, Decision (P x)}
    (l : list A) :
  filter P (filter P l) = filter P l.
Proof.
  induction l as [|x l IH]; [reflexivity|].
  rewrite filter_cons. destruct (decide (P x)) as [Hp|Hp]; [|exact IH].
  now rewrite filter_cons_True, IH.
Qed.

Lemma consistent_mount method (connected : bool) (handler : @Rpc.Handler St) :
  Rpc.consistent JSON_parse JSON_stringify method (Rpc.mount connected handler).
Proof. destruct connected; [reflexivity | split; reflexivity]. Qed.

Lemma consistent_effect method w :
  Rpc.consistent JSON_parse JSON_stringify method w → Rpc.consistent JSON_parse JSON_stringify method (fst (Rpc.effect JSON_parse JSON_stringify method w)).
Proof.
  unfold Rpc.consistent, Rpc.effect.
  destruct (Rpc.localParticipant w) as [p|] eqn:Hp.
  - destruct (Rpc.registeredRef w) eqn:Hflag; simpl.
    + now rewrite Hp, Hflag.
    + intros H. exists (Rpc.fresh p). split; [reflexivity|].
      rewrite filter_app, H, filter_cons_True by reflexivity. reflexivity.
  - simpl. rewrite Hp. now intros [_ ->].
Qed.

Lemma consistent_cleanup method w :
  Rpc.consistent JSON_parse JSON_stringify method w → Rpc.consistent JSON_parse JSON_stringify method (Rpc.cleanup w).
Proof.
  unfold Rpc.consistent, Rpc.cleanup.
  destruct (Rpc.unregisterRef w) as [id|] eqn:Hun; [|now rewrite Hun]. simpl.
  destruct (Rpc.localParticipant w) as [p|]; simpl; [|now intros [_ ?]].
  rewrite filter_swap.
  destruct (Rpc.registeredRef w).
  - intros (id' & Hid & ->). simplify_eq.
    now rewrite filter_cons_False by (simpl; tauto).
  - now intros ->.
Qed.

Lemma consistent_connect method w :
  Rpc.consistent JSON_parse JSON_stringify method w → Rpc.consistent JSON_parse JSON_stringify method (Rpc.connect w).
Proof.
  unfold Rpc.consistent, Rpc.connect. simpl.
  destruct (Rpc.localParticipant w) as [p|]; [tauto|].
  now intros [-> _].
Qed.

Lemma consistent_elsewhere method (others : list (@Rpc.Registration St))
    (used : nat) w :
  Rpc.consistent JSON_parse JSON_stringify method w → Rpc.consistent JSON_parse JSON_stringify method (Rpc.elsewhere method others used w).
Proof.
  unfold Rpc.consistent, Rpc.elsewhere. simpl.
  destruct (Rpc.localParticipant w) as [p|]; simpl; [|tauto].
  assert (E : filter (λ r : Rpc.Registration, Rpc.reg_method r = method)
                (filter (λ r, Rpc.reg_method r = method) (Rpc.registrations p)
                 ++ filter (λ r, Rpc.reg_method r ≠ method) others)%list
              = filter (λ r, Rpc.reg_method r = method) (Rpc.registrations p)).
  { rewrite filter_app, filter_twice.
    rewrite (filter_complement (λ r : Rpc.Registration, Rpc.reg_method r = method)).
    apply app_nil_r. }
  now rewrite E.
Qed.

Lemma consistent_step method w (ev : @Rpc.Event St) :
  Rpc.consistent JSON_parse JSON_stringify method w → Rpc.consistent JSON_parse JSON_stringify method (Rpc.step JSON_parse JSON_stringify method w ev).
Proof.
  destruct ev as [handler| | | |others used]; simpl.
  - tauto.
  - apply consistent_effect.
  - apply consistent_cleanup.
  - apply consistent_connect.
  - apply consistent_elsewhere.
Qed.

Lemma consistent_run method evs w :
  Rpc.consistent JSON_parse JSON_stringify method w → Rpc.consistent JSON_parse JSON_stringify method (Rpc.run JSON_parse JSON_stringify method evs w).
Proof.
  revert w. induction evs as [|ev evs IH]; intros w Hw; [exact Hw|].
  apply IH, consistent_step, Hw.
Qed.

(** In a consistent state the method's registrations are counted by
    [registeredRef]. *)
Lemma consistent_bindings method w :
  Rpc.consistent JSON_parse JSON_stringify method w →
  length (Rpc.bindings method w)
  = if Rpc.registeredRef w then 1%nat else 0%nat.
Proof.
  unfold Rpc.consistent, Rpc.bindings.
  destruct (Rpc.localParticipant w) as [p|]; [|now intros [-> _]].
  destruct (Rpc.registeredRef w).
  - now intros (id & _ & ->).
  - now intros ->.
Qed.

(** In a consistent state the closure the transport holds for the method
    is the one the effect registered. *)
Lemma consistent_closure method w (r : @Rpc.Registration St) :
  Rpc.consistent JSON_parse JSON_stringify method w → r ∈ Rpc.bindings method w →
  Rpc.reg_callback r = Rpc.invocation JSON_parse JSON_stringify.
Proof.
  unfold Rpc.consistent, Rpc.bindings.
  destruct (Rpc.localParticipant w) as [p|]; [|now intros _ ?%elem_of_nil].
  destruct (Rpc.registeredRef w).
  - intros (id & _ & ->) ->%list_elem_of_singleton. reflexivity.
  - now intros -> ?%elem_of_nil.
Qed.

Lemma handlerRef_step method w (ev : @Rpc.Event St) :
  Rpc.handlerRef (Rpc.step JSON_parse JSON_stringify method w ev)
  = match ev with Rpc.Render h => h | _ => Rpc.handlerRef w end.
Proof.
  destruct ev; simpl; try reflexivity.
  - unfold Rpc.effect. destruct (Rpc.localParticipant w); [|reflexivity].
    destruct (Rpc.registeredRef w); reflexivity.
  - unfold Rpc.cleanup. destruct (Rpc.unregisterRef w); reflexivity.
Qed.

Lemma handlerRef_run method evs w :
  Rpc.handlerRef (Rpc.run JSON_parse JSON_stringify method evs w) = Rpc.latest (Rpc.handlerRef w) evs.
Proof.
  unfold Rpc.run, Rpc.latest.
  revert w. induction evs as [|ev evs IH]; intros w; [reflexivity|].
  simpl. now rewrite IH, handlerRef_step.
Qed.

(** While the session is not connected the effect registers nothing: it
    clears [registeredRef] and returns no cleanup, to run again when the
    room changes. *)
Lemma effect_not_ready method w :
  Rpc.localParticipant w = None →
  Rpc.effect JSON_parse JSON_stringify method w = (Rpc.set_registered false w, false)
  ∧ Rpc.bindings method (fst (Rpc.effect JSON_parse JSON_stringify method w)) = [].
Proof.
  intros H. unfold Rpc.effect, Rpc.bindings. rewrite H. simpl.
  now rewrite H.
Qed.

(** What a handler raises reaches the caller: the callback raises the
    same error. *)
Lemma callback_raises w raw (e : JsError) (st st' : St) :
  Rpc.handlerRef w (Rpc.decode JSON_parse raw) st = (Raised e, st') →
  Rpc.callback JSON_parse JSON_stringify w raw st = (Raised e, st').
Proof.
  intros H. unfold Rpc.callback, Rpc.invocation. handler_steps. now rewrite H.
Qed.

(** C5. Mount a hook, on a session that is connected or not yet, and let
    any sequence of renders, registration attempts, cleanups, the session
    getting ready and the other hooks registering and unregistering their
    own methods happen. The transport then holds at most one registration
    for the method. Once the session is ready and a registration attempt
    has run it holds exactly one, and a further attempt returns with the
    hook and the transport exactly as they were and with no new cleanup.
    An inbound call for the method is then answered by the handler of the
    latest render: the caller gets that handler's response serialized
    ([{success: true}] for a falsy response), with the state that handler
    left, or the error that handler raised. *)
Theorem registration_idempotent method (connected : bool)
    (handler : @Rpc.Handler St) evs :
  let w := Rpc.run JSON_parse JSON_stringify method evs (Rpc.mount connected handler) in
  let w1 := fst (Rpc.effect JSON_parse JSON_stringify method (Rpc.connect w)) in
  (length (Rpc.bindings method w) ≤ 1)%nat
  ∧ length (Rpc.bindings method w1) = 1%nat
  ∧ Rpc.effect JSON_parse JSON_stringify method w1 = (w1, false)
  ∧ Rpc.handlerRef w1 = Rpc.latest handler evs
  ∧ ∀ raw, ∃ call,
      Rpc.deliver method w1 raw = Some call
      ∧ ∀ st, call st
              = match Rpc.latest handler evs (Rpc.decode JSON_parse raw) st with
                | (Returned response, st') =>
                    (Returned (JSON_stringify
                                 (if truthy response then response
                                  else success_object)), st')
                | (Raised e, st') => (Raised e, st')
                end.
Proof.
  intros w w1.
  assert (Hw : Rpc.consistent JSON_parse JSON_stringify method w)
    by apply consistent_run, consistent_mount.
  assert (Hw1 : Rpc.consistent JSON_parse JSON_stringify method w1)
    by apply consistent_effect, consistent_connect, Hw.
  assert (Hready : ∃ p, Rpc.localParticipant (Rpc.connect w) = Some p).
  { simpl. destruct (Rpc.localParticipant w); eauto. }
  assert (Hflag : Rpc.registeredRef w1 = true).
  { subst w1. unfold Rpc.effect. destruct Hready as (p & ->).
    destruct (Rpc.registeredRef (Rpc.connect w)) eqn:E; [exact E | reflexivity]. }
  assert (Hlatest : Rpc.handlerRef w1 = Rpc.latest handler evs).
  { change w1 with (Rpc.run JSON_parse JSON_stringify method [Rpc.Connect; Rpc.Register] w). subst w.
    now rewrite !handlerRef_run. }
  repeat apply conj.
  - rewrite (consistent_bindings _ _ Hw). destruct (Rpc.registeredRef w); lia.
  - now rewrite (consistent_bindings _ _ Hw1), Hflag.
  - unfold Rpc.effect at 1. rewrite Hflag.
    destruct (Rpc.localParticipant w1) eqn:E; [reflexivity|].
    unfold Rpc.consistent in Hw1. rewrite E in Hw1. destruct Hw1. congruence.
  - exact Hlatest.
  - intros raw. unfold Rpc.deliver.
    pose proof (consistent_bindings _ _ Hw1) as Hlen. rewrite Hflag in Hlen.
    pose proof (consistent_closure method w1) as Hclosure.
    destruct (Rpc.bindings method w1) as [|r rest]; [discriminate|].
    eexists. split; [reflexivity|]. intros st.
    rewrite (Hclosure r Hw1) by left. rewrite Hlatest.
    unfold Rpc.invocation. handler_steps.
    destruct (Rpc.latest handler evs (Rpc.decode JSON_parse raw) st)
      as [[response|e] st']; reflexivity.
Qed.

End Registry.

(** * Properties of the highlight matcher *)

Section Matcher.
Import Highlight.
Implicit Types (text s cur rest w : string) (highlights : list HighlightWord).

Lemma string_app_cons (c : ascii) s1 s2 :
  (String c s1 ++ s2 = String c (s1 ++ s2))%string.
Proof. reflexivity. Qed.

Lemma string_app_nil_r s : (s ++ "" = s)%string.
Proof.
  induction s as [|c s IH]; [reflexivity|].
  now rewrite string_app_cons, IH.
Qed.

Lemma string_app_assoc s1 s2 s3 : ((s1 ++ s2) ++ s3 = s1 ++ s2 ++ s3)%string.
Proof.
  induction s1 as [|c s1 IH]; [reflexivity|].
  now rewrite !string_app_cons, IH.
Qed.

Lemma not_syntax_char (c : ascii) :
  is_syntax_char c = false →
  Ascii.eqb c "\" = false ∧ Ascii.eqb c "|" = false ∧ Ascii.eqb c ")" = false.
Proof.
  intros H. repeat split;
    match goal with
    | |- Ascii.eqb c ?d = false =>
        destruct (Ascii.eqb_spec c d) as [->|];
        [vm_compute in H; discriminate | reflexivity]
    end.
Qed.

(** The parser reads an escaped word back as the word itself. *)
Lemma parse_escaped w rest cur :
  parse_alternatives (escapeRegExp w ++ rest) cur
  = parse_alternatives rest (cur ++ w).
Proof.
  revert cur. induction w as [|c w IH]; intros cur.
  - now rewrite string_app_nil_r.
  - cbn [escapeRegExp]. destruct (is_syntax_char c) eqn:Hc.
    + rewrite !string_app_cons. cbn [parse_alternatives].
      change (Ascii.eqb "\" "\") with true. cbv iota.
      rewrite Hc, IH, string_app_assoc. reflexivity.
    + rewrite string_app_cons. cbn [parse_alternatives].
      destruct (not_syntax_char c Hc) as (-> & -> & ->).
      rewrite Hc, IH, string_app_assoc. reflexivity.
Qed.

Lemma parse_joined (words : list string) :
  words ≠ [] →
  parse_alternatives (join "|" (map escapeRegExp words) ++ ")") "" = Some words.
Proof.
  induction words as [|w words IH]; [congruence|]. intros _.
  destruct words as [|w' words].
  - cbn [map join]. rewrite parse_escaped. reflexivity.
  - change (join "|" (map escapeRegExp (w :: w' :: words)))
      with (escapeRegExp w ++ "|" ++ join "|" (map escapeRegExp (w' :: words))).
    rewrite string_app_assoc, parse_escaped, string_app_assoc.
    change ("|" ++ join "|" (map escapeRegExp (w' :: words)) ++ ")")
      with (String "|" (join "|" (map escapeRegExp (w' :: words)) ++ ")")).
    cbn [parse_alternatives].
    change (Ascii.eqb "|" "\") with false. change (Ascii.eqb "|" "|") with true.
    cbv iota. rewrite IH by congruence. reflexivity.
Qed.

(** The pattern built from a non-empty term list is the alternation of
    the terms' words, taken literally and in list order. *)
Lemma RegExp_pattern_source highlights :
  highlights ≠ [] →
  RegExp (pattern_source highlights) = Some (map word highlights).
Proof.
  intros Hne. unfold pattern_source, RegExp. rewrite string_app_cons.
  change ("" ++ ?x) with x. rewrite <- (map_map word escapeRegExp).
  apply parse_joined. now destruct highlights.
Qed.

(** [splitTextOnHighlights] never raises. *)
Lemma splitTextOnHighlights_returns text highlights :
  ∃ r, splitTextOnHighlights text highlights = Returned r.
Proof.
  unfold splitTextOnHighlights.
  destruct highlights as [|h hs]; [simpl; eauto|].
  rewrite RegExp_pattern_source by congruence.
  destruct (_ || _); eauto.
Qed.

Lemma join_empty_cons (p : string) (rest : list string) :
  join "" (p :: rest) = (p ++ join "" rest)%string.
Proof.
  destruct rest as [|p' rest]; [now rewrite string_app_nil_r|reflexivity].
Qed.

Lemma substring_string_drop (n : nat) s :
  (substring 0 n s ++ string_drop n s = s)%string.
Proof.
  revert s. induction n as [|n IH]; intros [|c s]; try reflexivity.
  cbn [substring string_drop]. now rewrite string_app_cons, IH.
Qed.

(** The pieces and captured separators [split_loop] emits, put back
    together, are the text it was given. *)
Lemma split_loop_text (alts : list string) s cur (skip : nat) :
  join "" (split_loop alts s cur skip) = (cur ++ string_drop skip s)%string.
Proof.
  revert cur skip. induction s as [|c s IH]; intros cur skip.
  - destruct skip; cbn [split_loop join string_drop];
      now rewrite string_app_nil_r.
  - cbn [split_loop]. destruct skip as [|k]; [|now rewrite IH].
    destruct (exec_at alts (String c s)) as [[|k]|].
    + destruct cur as [|d cur].
      * rewrite IH. reflexivity.
      * rewrite !join_empty_cons, IH. reflexivity.
    + rewrite !join_empty_cons, IH.
      change (string_drop 0 (String c s)) with (String c s).
      rewrite <- (substring_string_drop (S k) (String c s)) at 2.
      reflexivity.
    + rewrite IH, string_app_assoc. reflexivity.
Qed.

Lemma part_text_render highlights (parts : list string) :
  map part_text (map (render_part highlights) parts) = parts.
Proof.
  induction parts as [|p parts IH]; [reflexivity|]. cbn [map]. rewrite IH.
  f_equal. unfold render_part. now destruct (List.find _ _).
Qed.

(** Whatever the terms, the fragments returned for a text concatenate to
    that text: marking never adds, drops or reorders a character. *)
Lemma splitTextOnHighlights_preserves_text text highlights :
  ∃ r, splitTextOnHighlights text highlights = Returned r ∧ shown_text r = text.
Proof.
  unfold splitTextOnHighlights.
  destruct highlights as [|h hs]; [simpl; eauto|].
  rewrite RegExp_pattern_source by congruence.
  destruct text as [|c text]; [simpl; eauto|].
  eexists. split; [reflexivity|]. cbn [shown_text].
  rewrite part_text_render. unfold split. apply split_loop_text.
Qed.

(** C6. With an empty term list the matcher returns the text itself.
    On "The cat sat" with the single term cat/noun it returns three
    fragments that concatenate to the text, of which exactly one, "cat",
    is marked. *)
Theorem highlight_round_trip :
  (∀ text, splitTextOnHighlights text [] = Returned (Text text))
  ∧ ∃ r, splitTextOnHighlights "The cat sat" [Samples.cat_noun] = Returned r
         ∧ r = Parts [ Plain "The ";
                       Mark "cat" (Highlighted "#DC262628" "2px solid #DC2626");
                       Plain " sat" ]
         ∧ shown_text r = "The cat sat"
         ∧ map part_text (marks r) = ["cat"].
Proof.
  split; [reflexivity|].
  eexists. split; [reflexivity|]. repeat split.
Qed.

(** C7: a term with the empty word is not ignored. Its empty alternative
    matches between any two characters: "ab" comes back cut in two with an
    empty marked fragment in between, whereas the same list without that
    term returns "ab" itself. *)
Theorem empty_word_is_matched :
  splitTextOnHighlights "ab" [Samples.empty_word]
  = Returned (Parts [ Plain "a";
                      Mark "" (Highlighted "#DC262628" "2px solid #DC2626");
                      Plain "b" ])
  ∧ splitTextOnHighlights "ab"
      (List.filter (λ h, negb (String.eqb (word h) "")) [Samples.empty_word])
    = Returned (Text "ab").
Proof. split; reflexivity. Qed.

(** The same with a second, ordinary term in the list. *)
Lemma empty_word_beside_cat :
  splitTextOnHighlights "a cat" [Samples.cat_noun; Samples.empty_word]
  = Returned (Parts [ Plain "a";
                      Mark "" (Highlighted "#DC262628" "2px solid #DC2626");
                      Plain " ";
                      Mark "cat" (Highlighted "#DC262628" "2px solid #DC2626");
                      Mark "" (Highlighted "#DC262628" "2px solid #DC2626") ])
  ∧ splitTextOnHighlights "a cat" [Samples.cat_noun]
    = Returned (Parts [ Plain "a ";
                        Mark "cat" (Highlighted "#DC262628" "2px solid #DC2626");
                        Plain "" ]).
Proof. split; reflexivity. Qed.

End Matcher.

(** * Properties of the signal extractor *)

Section Extractor.
Import Audio.

Lemma array_length_integer (k : nat) (q : Q) :
  (Z.of_nat k < 2 ^ 32)%Z → (q == inject_Z (Z.of_nat k))%Q →
  array_length q = Some k.
Proof.
  intros Hk Hq. unfold array_length.
  rewrite (Qred_complete _ _ Hq), Qred_integer. cbn [inject_Z Qnum Qden].
  destruct (Z.leb_spec 0 (Z.of_nat k)); [|lia].
  destruct (Z.ltb_spec (Z.of_nat k) (2 ^ 32)); [|lia].
  now rewrite Nat2Z.id.
Qed.

Lemma binCount_even (k : nat) :
  (binCount (inject_Z (2 * Z.of_nat k)) == inject_Z (Z.of_nat k))%Q.
Proof. unfold binCount, Qdiv, Qmult, Qinv, Qeq, inject_Z. simpl. lia. Qed.

(** C9. Let [fftSize] be twice a length the platform accepts for an
    array, and let the track source resolve to no media track. The sample
    sequence of the first render, and the one the effect leaves whatever
    was there before, is then [fftSize / 2] zeros. *)
Theorem no_source_gives_zeros (half : nat) (platform : Platform)
    (trackSource : Shape) (st : State) :
  (Z.of_nat half < 2 ^ 32)%Z →
  mediaStreamTrack trackSource = Undefined →
  ∃ st0 st',
    mount (inject_Z (2 * Z.of_nat half)) = Returned st0
    ∧ useAudioAnalyzer st0 = replicate half 0%Q
    ∧ effect platform trackSource (inject_Z (2 * Z.of_nat half)) st
      = (Returned (), st')
    ∧ useAudioAnalyzer st' = replicate half 0%Q
    ∧ length (useAudioAnalyzer st') = half
    ∧ Forall (λ x, x = 0%Q) (useAudioAnalyzer st').
Proof.
  intros Hhalf Hnone.
  pose proof (array_length_integer half _ Hhalf (binCount_even half)) as Hlen.
  unfold mount, effect, zero_filled. rewrite Hnone, Hlen.
  do 2 eexists. split; [reflexivity|]. split; [reflexivity|].
  handler_steps. split; [reflexivity|]. cbn [useAudioAnalyzer data].
  split; [reflexivity|]. split; [apply length_replicate|].
  apply Forall_forall. now intros x [-> _]%elem_of_replicate.
Qed.

Lemma no_source_gives_zeros_witness :
  ∃ st0 st',
    mount 64 = Returned st0
    ∧ useAudioAnalyzer st0 = replicate 32 0%Q
    ∧ effect {| AudioContextClass := true; frequencyData := [] |} Undefined 64
        {| data := [1%Q]; rafRef := false; sourceRef := false;
           analyserRef := false; audioContextRef := false |}
      = (Returned (), st')
    ∧ useAudioAnalyzer st' = replicate 32 0%Q
    ∧ length (useAudioAnalyzer st') = 32%nat
    ∧ Forall (λ x, x = 0%Q) (useAudioAnalyzer st').
Proof.
  apply (no_source_gives_zeros 32); [reflexivity | reflexivity].
Defined.

(** An odd [fftSize] has no half: the first render raises. *)
Lemma odd_fftSize_raises : mount 63 = Raised RangeError.
Proof. reflexivity. Qed.

End Extractor.

(** * Further properties of the classroom rules *)

Section ClassroomRules.
Import Classroom ClassroomPage.
Implicit Types (payload : JValue) (st : State).

(** The callback of [payload.answers.map] reads its element and touches
    no state. *)
Lemma hidden_answer_state (a : JValue) st : snd (hidden_answer a st) = st.
Proof.
  unfold hidden_answer. handler_steps.
  destruct (get_prop a "text"); [|reflexivity].
  destruct (get_prop a "percentage"); reflexivity.
Qed.

Lemma hidden_answers_state (items : list JValue) st :
  snd (mapM hidden_answer items st) = st.
Proof.
  revert st. induction items as [|a items IH]; intros st; [reflexivity|].
  cbn [mapM]. handler_steps.
  pose proof (hidden_answer_state a st) as Ha.
  destruct (hidden_answer a st) as [[x|e] st1]; simpl in Ha; subst st1;
    [|reflexivity].
  specialize (IH st).
  destruct (mapM hidden_answer items st) as [[xs|e] st2]; simpl in IH; subst st2;
    reflexivity.
Qed.

Lemma js_map_hidden_answer_state (raw : JValue) st :
  snd (js_map hidden_answer raw st) = st.
Proof.
  destruct raw; try reflexivity. apply hidden_answers_state.
Qed.

(** [start_cognitive_test], step by step, in terms of what the mapping
    returns. *)
Lemma start_cognitive_test_unfold payload st :
  start_cognitive_test payload st
  = match get_prop payload "question" with
    | Raised e => (Raised e, st)
    | Returned question =>
        if truthy question then
          match get_prop payload "answers" with
          | Raised e => (Raised e, st)
          | Returned raw =>
              if truthy raw then
                let st1 := snd (setCognitiveQuestion question st) in
                match fst (js_map hidden_answer raw st1) with
                | Raised e => (Raised e, st1)
                | Returned answers =>
                    (Returned JUndefined,
                     snd (setViewMode "cognitive_test"
                            (snd (setCognitiveAnswers (λ _, answers) st1))))
                end
              else (Returned JUndefined, st)
          end
        else (Returned JUndefined, st)
    end.
Proof.
  unfold start_cognitive_test. fold hidden_answer. handler_steps.
  destruct (get_prop payload "question") as [question|e]; [|reflexivity].
  destruct (truthy question); [|reflexivity].
  destruct (get_prop payload "answers") as [raw|e]; [|reflexivity].
  destruct (truthy raw); [|reflexivity].
  unfold setCognitiveQuestion, setCognitiveAnswers, setViewMode, modify.
  cbn [fst snd].
  match goal with
  | |- context [js_map hidden_answer raw ?s] =>
      pose proof (js_map_hidden_answer_state raw s) as Hst;
      destruct (js_map hidden_answer raw s) as [[answers|e] st2]
  end; simpl in Hst; subst st2; reflexivity.
Qed.


Lemma hidden_answers_return (items : list JValue) st :
  Forall (λ a, nullish a = false) items →
  fst (mapM hidden_answer items st)
  = Returned ((λ a, {| text := default JUndefined (own_field a "text");
                       percentage := default JUndefined (own_field a "percentage");
                       revealed := false |}) <$> items).
Proof.
  induction 1 as [|a items Ha _ IH]; [reflexivity|].
  cbn [mapM fmap list_fmap]. handler_steps.
  unfold hidden_answer at 1. handler_steps.
  rewrite !(get_prop_own _ _ Ha). cbn beta iota.
  pose proof (hidden_answers_state items st) as Hst.
  destruct (mapM hidden_answer items st) as [[xs|e] st1];
    simpl in *; subst st1; [|discriminate].
  now injection IH as ->.
Qed.

Lemma hidden_answers_raise (items : list JValue) st :
  Exists (λ a, nullish a = true) items →
  fst (mapM hidden_answer items st) = Raised TypeError.
Proof.
  induction 1 as [a items Ha|a items _ IH].
  - cbn [mapM]. handler_steps. unfold hidden_answer. handler_steps.
    now rewrite (get_prop_nullish _ _ Ha).
  - cbn [mapM]. handler_steps.
    pose proof (hidden_answer_state a st) as Ha.
    destruct (hidden_answer a st) as [[x|e] st1] eqn:E; simpl in Ha; subst st1.
    + pose proof (hidden_answers_state items st) as Hst.
      destruct (mapM hidden_answer items st) as [[xs|e] st1];
        simpl in *; subst st1; [discriminate | congruence].
    + unfold hidden_answer in E. revert E. handler_steps.
      destruct (get_prop a "text") as [v|[]] eqn:Et;
        destruct a; simpl in Et; try discriminate;
        try (intros [= <-]; reflexivity);
        cbn; intros [=].
Qed.


(** X1. [start_cognitive_test] on a payload with a truthy question and an
    array of answers none of which is null: it returns, stores the
    question, stores one entry per answer in the payload's order with the
    answer's [text] and [percentage], every entry hidden, and switches
    the view to the quiz. *)
Theorem start_cognitive_test_hides_all payload (question : JValue)
    (items : list JValue) st :
  own_field payload "question" = Some question → truthy question = true →
  own_field payload "answers" = Some (JArr items) →
  Forall (λ a, nullish a = false) items →
  let st' := snd (start_cognitive_test payload st) in
  fst (start_cognitive_test payload st) = Returned JUndefined
  ∧ cognitiveQuestion st' = question
  ∧ cognitiveAnswers st'
    = (λ a, {| text := default JUndefined (own_field a "text");
               percentage := default JUndefined (own_field a "percentage");
               revealed := false |}) <$> items
  ∧ length (cognitiveAnswers st') = length items
  ∧ Forall (λ a, revealed a = false) (cognitiveAnswers st')
  ∧ viewMode st' = "cognitive_test".
Proof.
  intros Hq Htq Ha Hitems. cbv zeta. rewrite start_cognitive_test_unfold.
  rewrite (get_prop_present _ _ _ Hq), Htq, (get_prop_present _ _ _ Ha).
  cbn [truthy js_map]. cbv zeta. rewrite (hidden_answers_return _ _ Hitems).
  cbn. repeat split.
  - now rewrite length_fmap.
  - apply Forall_fmap, Forall_forall. reflexivity.
Qed.

Lemma start_cognitive_test_hides_all_witness :
  cognitiveAnswers
    (snd (start_cognitive_test
            (JObj (<["question" := JStr "Name a planet"]>
                     {[ "answers" :=
                          JArr [ JObj (<["text" := JStr "Mars"]>
                                         {[ "percentage" := JNum 40 ]});
                                 JStr "Venus" ] ]}))
            Samples.classroom))
  = [ {| text := JStr "Mars"; percentage := JNum 40; revealed := false |};
      {| text := JUndefined; percentage := JUndefined; revealed := false |} ].
Proof.
  refine (proj1 (proj2 (proj2 (start_cognitive_test_hides_all
            (JObj (<["question" := JStr "Name a planet"]>
                     {[ "answers" :=
                          JArr [ JObj (<["text" := JStr "Mars"]>
                                         {[ "percentage" := JNum 40 ]});
                                 JStr "Venus" ] ]}))
            (JStr "Name a planet") _ Samples.classroom
            eq_refl eq_refl eq_refl _)))).
  repeat constructor.
Defined.

(** X2. [start_cognitive_test] is not all-or-nothing. With a truthy
    question and an answers array that holds a null, it raises a
    TypeError after the question has been replaced: the old answers now
    stand under the new question, and the view is not switched. *)
Theorem start_cognitive_test_null_answer payload (question : JValue)
    (items : list JValue) st :
  own_field payload "question" = Some question → truthy question = true →
  own_field payload "answers" = Some (JArr items) →
  Exists (λ a, nullish a = true) items →
  let st' := snd (start_cognitive_test payload st) in
  fst (start_cognitive_test payload st) = Raised TypeError
  ∧ cognitiveQuestion st' = question
  ∧ cognitiveAnswers st' = cognitiveAnswers st
  ∧ viewMode st' = viewMode st.
Proof.
  intros Hq Htq Ha Hitems. cbv zeta. rewrite start_cognitive_test_unfold.
  rewrite (get_prop_present _ _ _ Hq), Htq, (get_prop_present _ _ _ Ha).
  cbn [truthy js_map]. cbv zeta. rewrite (hidden_answers_raise _ _ Hitems).
  repeat split.
Qed.

Lemma start_cognitive_test_null_answer_witness :
  fst (start_cognitive_test
         (JObj (<["question" := JStr "Name a fruit"]>
                  {[ "answers" := JArr [JStr "Apple"; JNull] ]}))
         Samples.classroom)
  = Raised TypeError
  ∧ cognitiveQuestion
      (snd (start_cognitive_test
              (JObj (<["question" := JStr "Name a fruit"]>
                       {[ "answers" := JArr [JStr "Apple"; JNull] ]}))
              Samples.classroom))
    = JStr "Name a fruit".
Proof.
  pose proof (start_cognitive_test_null_answer
                (JObj (<["question" := JStr "Name a fruit"]>
                         {[ "answers" := JArr [JStr "Apple"; JNull] ]}))
                (JStr "Name a fruit") [JStr "Apple"; JNull] Samples.classroom
                eq_refl eq_refl eq_refl) as H.
  cbv zeta in H. split; apply H; right; left; reflexivity.
Defined.


(** What [reveal_at] keeps, whatever the index. *)
Lemma reveal_at_keeps (q : Q) (answers : list CognitiveAnswer) :
  length (reveal_at q answers) = length answers
  ∧ text <$> reveal_at q answers = text <$> answers
  ∧ percentage <$> reveal_at q answers = percentage <$> answers
  ∧ ∀ i a, answers !! i = Some a → revealed a = true →
      revealed <$> reveal_at q answers !! i = Some true.
Proof.
  unfold reveal_at. destruct (array_index q) as [i|];
    [|by repeat split; intros i a -> ?; simpl; f_equal].
  destruct (answers !! i) as [a|] eqn:Ha;
    [|by repeat split; intros j b -> ?; simpl; f_equal].
  repeat split.
  - apply length_insert.
  - rewrite list_fmap_insert. now apply list_insert_id; rewrite list_lookup_fmap, Ha.
  - rewrite list_fmap_insert. now apply list_insert_id; rewrite list_lookup_fmap, Ha.
  - intros j b Hb Hrev. destruct (decide (i = j)) as [->|Hne].
    + rewrite list_lookup_insert_eq by (now apply lookup_lt_Some in Ha).
      reflexivity.
    + rewrite list_lookup_insert_ne by done. rewrite Hb. simpl. now f_equal.
Qed.

(** X3. Whatever the payload, [reveal_answer] keeps the number of
    answers, their texts and their percentages, and never hides an answer
    that was revealed. *)
Theorem reveal_answer_only_reveals payload st :
  let answers := cognitiveAnswers st in
  let answers' := cognitiveAnswers (snd (reveal_answer payload st)) in
  length answers' = length answers
  ∧ text <$> answers' = text <$> answers
  ∧ percentage <$> answers' = percentage <$> answers
  ∧ ∀ i a, answers !! i = Some a → revealed a = true →
      revealed <$> answers' !! i = Some true.
Proof.
  cbv zeta. unfold reveal_answer. handler_steps.
  destruct (get_prop payload "index") as [[| | |q| | |]|e]; cbn;
    try (by repeat split; intros i a -> ?; simpl; f_equal).
  apply reveal_at_keeps.
Qed.

(** X4. Revealing is idempotent and order-independent on the answers:
    the same index twice leaves what once leaves, and two indices give the
    same answers in either order. *)
Theorem reveal_at_idempotent_commutes (q1 q2 : Q)
    (answers : list CognitiveAnswer) :
  reveal_at q1 (reveal_at q1 answers) = reveal_at q1 answers
  ∧ reveal_at q1 (reveal_at q2 answers) = reveal_at q2 (reveal_at q1 answers).
Proof.
  assert (Hstep : ∀ q i (l : list CognitiveAnswer),
            array_index q = Some i →
            reveal_at q l = match l !! i with
                            | Some a => <[i := reveal a]> l
                            | None => l
                            end)
    by (intros q i l Hq; unfold reveal_at; now rewrite Hq).
  assert (Hnone : ∀ q (l : list CognitiveAnswer),
            array_index q = None → reveal_at q l = l)
    by (intros q l Hq; unfold reveal_at; now rewrite Hq).
  split.
  - destruct (array_index q1) as [i|] eqn:E1; [|now rewrite !Hnone].
    rewrite !(Hstep _ _ _ E1).
    destruct (answers !! i) as [a|] eqn:Ha; [|now rewrite Ha].
    rewrite list_lookup_insert_eq by (now apply lookup_lt_Some in Ha).
    now rewrite list_insert_insert_eq.
  - destruct (array_index q1) as [i|] eqn:E1; [|now rewrite !(Hnone q1)].
    destruct (array_index q2) as [j|] eqn:E2; [|now rewrite !(Hnone q2)].
    rewrite !(Hstep _ _ _ E1), !(Hstep _ _ _ E2).
    destruct (decide (i = j)) as [->|Hne]; [reflexivity|].
    destruct (answers !! i) as [a|] eqn:Ha, (answers !! j) as [b|] eqn:Hb;
      rewrite ?list_lookup_insert_ne, ?Ha, ?Hb by done; try reflexivity.
    now apply list_insert_insert_ne.
Qed.


(** X5. Each classroom rule writes only the part of the state that is
    its own, on every payload and also when it raises: the board rules
    leave focus, quiz, scores and sounds alone, the focus rule leaves
    board, view, quiz, scores and sounds alone, the quiz rules leave
    board, focus and scores alone, and [update_scores] changes nothing
    but the scores. *)
Theorem rules_keep_other_concerns payload st :
  (content (snd (highlight_text payload st)) = content st
   ∧ focus_part (snd (highlight_text payload st)) = focus_part st
   ∧ quiz_part (snd (highlight_text payload st)) = quiz_part st
   ∧ teamScores (snd (highlight_text payload st)) = teamScores st
   ∧ played (snd (highlight_text payload st)) = played st)
  ∧ (focus_part (snd (update_content payload st)) = focus_part st
     ∧ quiz_part (snd (update_content payload st)) = quiz_part st
     ∧ teamScores (snd (update_content payload st)) = teamScores st
     ∧ played (snd (update_content payload st)) = played st)
  ∧ (board_view (snd (show_student_focus payload st)) = board_view st
     ∧ viewMode (snd (show_student_focus payload st)) = viewMode st
     ∧ quiz_part (snd (show_student_focus payload st)) = quiz_part st
     ∧ teamScores (snd (show_student_focus payload st)) = teamScores st
     ∧ played (snd (show_student_focus payload st)) = played st)
  ∧ (board_view (snd (start_cognitive_test payload st)) = board_view st
     ∧ focus_part (snd (start_cognitive_test payload st)) = focus_part st
     ∧ teamScores (snd (start_cognitive_test payload st)) = teamScores st
     ∧ played (snd (start_cognitive_test payload st)) = played st)
  ∧ (board_view (snd (reveal_answer payload st)) = board_view st
     ∧ viewMode (snd (reveal_answer payload st)) = viewMode st
     ∧ focus_part (snd (reveal_answer payload st)) = focus_part st
     ∧ cognitiveQuestion (snd (reveal_answer payload st)) = cognitiveQuestion st
     ∧ teamScores (snd (reveal_answer payload st)) = teamScores st)
  ∧ (board_view (snd (update_scores payload st)) = board_view st
     ∧ viewMode (snd (update_scores payload st)) = viewMode st
     ∧ focus_part (snd (update_scores payload st)) = focus_part st
     ∧ quiz_part (snd (update_scores payload st)) = quiz_part st
     ∧ played (snd (update_scores payload st)) = played st)
  ∧ (board_view (snd (show_error_buzzer payload st)) = board_view st
     ∧ viewMode (snd (show_error_buzzer payload st)) = viewMode st
     ∧ focus_part (snd (show_error_buzzer payload st)) = focus_part st
     ∧ quiz_part (snd (show_error_buzzer payload st)) = quiz_part st
     ∧ teamScores (snd (show_error_buzzer payload st)) = teamScores st).
Proof.
  split; [|split; [|split; [|split; [|split; [|split]]]]].
  - unfold highlight_text. one_field_rule "words".
  - unfold update_content. one_field_rule "text".
  - unfold show_student_focus. one_field_rule "studentName".
  - rewrite start_cognitive_test_unfold.
    destruct (get_prop payload "question") as [question|e]; [|repeat split].
    destruct (truthy question); [|repeat split].
    destruct (get_prop payload "answers") as [raw|e]; [|repeat split].
    destruct (truthy raw); [|repeat split]. cbv zeta.
    destruct (fst (js_map hidden_answer raw _)); repeat split.
  - unfold reveal_answer. handler_steps.
    destruct (get_prop payload "index") as [[| | |q| | |]|e]; repeat split.
  - unfold update_scores. one_field_rule "scores".
  - repeat split.
Qed.

(** X6. Last write wins for [update_content]: after any earlier call, a
    call whose [text] is truthy (on the talk page: present) leaves exactly
    the state it would have left without the earlier call. *)
Theorem update_content_last_write_wins (earlier payload text : JValue)
    st (bst : Board.State) :
  own_field payload "text" = Some text → truthy text = true →
  snd (update_content payload (snd (update_content earlier st)))
  = snd (update_content payload st)
  ∧ snd (Board.update_content payload (snd (Board.update_content earlier bst)))
    = snd (Board.update_content payload bst).
Proof.
  intros H Ht. unfold update_content, Board.update_content. handler_steps.
  rewrite !(get_prop_present _ _ _ H), Ht.
  assert (Board.is_defined text = true) as -> by (destruct text; done).
  destruct (get_prop earlier "text") as [v|e]; cbn beta iota.
  - destruct (truthy v), (Board.is_defined v); split; reflexivity.
  - split; reflexivity.
Qed.

Lemma update_content_last_write_wins_witness :
  snd (update_content (Samples.with_field "text" (JStr "Newton"))
         (snd (update_content (Samples.with_field "text" (JStr "Kepler"))
                 Samples.classroom)))
  = snd (update_content (Samples.with_field "text" (JStr "Newton"))
           Samples.classroom).
Proof.
  apply (proj1 (update_content_last_write_wins
                  (Samples.with_field "text" (JStr "Kepler"))
                  (Samples.with_field "text" (JStr "Newton")) (JStr "Newton")
                  Samples.classroom Samples.board eq_refl eq_refl)).
Defined.


Lemma truthy_not_nullish (v : JValue) : truthy v = true → nullish v = false.
Proof. now destruct v. Qed.

(** X7. Scores are replaced, not merged. After [update_scores] with a
    truthy [scores], the score the board shows for a team is the one in
    the payload's [scores] when that is truthy, and 0 otherwise, whatever
    the team had before; reading it never raises. *)
Theorem update_scores_replaces_wholesale payload (scores : JValue)
    (name : string) st :
  own_field payload "scores" = Some scores → truthy scores = true →
  let shown := team_score (teamScores (snd (update_scores payload st))) name in
  (∀ v, own_field scores name = Some v → truthy v = true → shown = Returned v)
  ∧ (own_field scores name = None → shown = Returned (JNum 0)).
Proof.
  intros H Ht. cbv zeta. unfold update_scores. handler_steps.
  rewrite !(get_prop_present _ _ _ H), Ht. cbn [snd teamScores].
  unfold team_score. rewrite (get_prop_own _ _ (truthy_not_nullish _ Ht)).
  split.
  - intros v -> Hv. simpl. now rewrite Hv.
  - now intros ->.
Qed.

Lemma update_scores_replaces_wholesale_witness :
  team_score
    (teamScores
       (snd (update_scores
               (Samples.with_field "scores"
                  (Samples.with_field "Team Alpha" (JNum 5)))
               ClassroomPage.initial)))
    "Team Beta"
  = Returned (JNum 0).
Proof.
  apply (proj2 (update_scores_replaces_wholesale
                  (Samples.with_field "scores"
                     (Samples.with_field "Team Alpha" (JNum 5)))
                  (Samples.with_field "Team Alpha" (JNum 5)) "Team Beta"
                  ClassroomPage.initial eq_refl eq_refl)).
  reflexivity.
Defined.

(** The clock: what [advance] does to each field. *)
Lemma advance_fields (t : N) st :
  Classroom.board_view (advance t st) = Classroom.board_view st
  ∧ viewMode (advance t st) = viewMode st
  ∧ quiz_part (advance t st) = quiz_part st
  ∧ teamScores (advance t st) = teamScores st
  ∧ played (advance t st) = played st
  ∧ timers (advance t st) = filter (λ d : N, ¬ (d ≤ t)%N) (timers st)
  ∧ focusedStudent (advance t st)
    = match due_by t st with [] => focusedStudent st | _ :: _ => JNull end.
Proof.
  unfold advance.
  set (clear := λ (s : State) (_ : N), snd (setFocusedStudent JNull s)).
  assert (Hfold : ∀ (due : list N) (s : State),
            Classroom.board_view (foldl clear s due) = Classroom.board_view s
            ∧ viewMode (foldl clear s due) = viewMode s
            ∧ quiz_part (foldl clear s due) = quiz_part s
            ∧ teamScores (foldl clear s due) = teamScores s
            ∧ played (foldl clear s due) = played s
            ∧ timers (foldl clear s due) = timers s
            ∧ focusedStudent (foldl clear s due)
              = match due with [] => focusedStudent s | _ :: _ => JNull end).
  { induction due as [|d due IH]; intros s; [repeat split|].
    cbn [foldl]. destruct (IH (clear s d)) as (? & ? & ? & ? & ? & ? & Hf).
    repeat split; try assumption. rewrite Hf. now destruct due. }
  destruct (Hfold (due_by t st)
              {| content := content st; highlights := highlights st;
                 focusedStudent := focusedStudent st; viewMode := viewMode st;
                 cognitiveQuestion := cognitiveQuestion st;
                 cognitiveAnswers := cognitiveAnswers st;
                 teamScores := teamScores st; now := N.max (now st) t;
                 timers := filter (λ d : N, ¬ (d ≤ t)%N) (timers st);
                 played := played st |})
    as (? & ? & ? & ? & ? & ? & ?).
  repeat split; assumption.
Qed.

Lemma well_formed_rule payload st :
  well_formed st →
  Forall (λ rule : JValue → Eff State JValue,
            well_formed (snd (rule payload st)))
    (snd <$> rules).
Proof.
  intros (Hview & Hcontent & Hscores & Hfocus).
  cbn [rules fmap list_fmap snd].
  repeat apply List.Forall_cons; [..|apply List.Forall_nil]; unfold well_formed.
  - unfold highlight_text. handler_steps.
    destruct (get_prop payload "words") as [v|e]; [destruct (truthy v)|];
      cbn; tauto.
  - unfold update_content. handler_steps.
    destruct (get_prop payload "text") as [v|e];
      [destruct (truthy v) eqn:Hv|]; cbn; tauto.
  - unfold show_student_focus. handler_steps.
    destruct (get_prop payload "studentName") as [v|e];
      [destruct (truthy v) eqn:Hv|]; cbn; tauto.
  - rewrite start_cognitive_test_unfold.
    destruct (get_prop payload "question") as [question|e]; [|tauto].
    destruct (truthy question); [|tauto].
    destruct (get_prop payload "answers") as [raw|e]; [|tauto].
    destruct (truthy raw); [|tauto]. cbv zeta.
    destruct (fst (js_map hidden_answer raw _)); cbn; tauto.
  - unfold reveal_answer. handler_steps.
    destruct (get_prop payload "index") as [[| | |q| | |]|e]; cbn; tauto.
  - unfold update_scores. handler_steps.
    destruct (get_prop payload "scores") as [v|e];
      [destruct (truthy v) eqn:Hv|]; cbn; try tauto.
    pose proof (truthy_not_nullish _ Hv). tauto.
  - cbn. tauto.
Qed.

Lemma well_formed_handle st (ev : Inbound) :
  well_formed st → well_formed (handle st ev).
Proof.
  intros Hst. destruct ev as [method payload|t]; cbn [handle].
  - destruct (handler_of method) as [rule|] eqn:E; [|exact Hst].
    pose proof (well_formed_rule payload st Hst) as Hall.
    rewrite Forall_forall in Hall. apply Hall.
    unfold handler_of in E.
    destruct (List.find _ rules) as [[name r]|] eqn:Efind; [|discriminate].
    injection E as <-. apply List.find_some in Efind as [Hin _].
    apply list_elem_of_In in Hin. change r with (snd (name, r)).
    now apply list_elem_of_fmap_2.
  - destruct Hst as (Hview & Hcontent & Hscores & Hfocus).
    destruct (advance_fields t st) as (Hb & Hv & _ & Hs & _ & _ & Hf).
    unfold well_formed. rewrite Hv, Hs, Hf.
    injection Hb as -> _. repeat split; try assumption.
    destruct (due_by t st); tauto.
Qed.

(** X8. Whatever calls arrive, with whatever payloads, and however the
    clock moves, the classroom page from its initial state keeps: the view
    mode is "content" or "cognitive_test"; the content is truthy, so the
    content panel never falls back to its waiting message; the focused
    student is null or truthy; and the scores are an object the board can
    read, so the score of a team is always shown. *)
Theorem classroom_page_invariant (evs : list Inbound) (name : string) :
  let st := run evs initial in
  (viewMode st = "content" ∨ viewMode st = "cognitive_test")
  ∧ truthy (content st) = true
  ∧ (focusedStudent st = JNull ∨ truthy (focusedStudent st) = true)
  ∧ ∃ v, team_score (teamScores st) name = Returned v.
Proof.
  cbv zeta.
  assert (Hwf : well_formed (run evs initial)).
  { unfold run. generalize initial, (ltac:(repeat split; auto) : well_formed initial).
    induction evs as [|ev evs IH]; intros st Hst; [exact Hst|].
    cbn [foldl]. apply IH, well_formed_handle, Hst. }
  destruct Hwf as (Hview & Hcontent & Hscores & Hfocus).
  repeat split; try assumption.
  unfold team_score. rewrite (get_prop_own _ _ Hscores). eauto.
Qed.

End ClassroomRules.

(** * The rules on payloads that are not null *)

Section Defensive.
Implicit Types (payload : JValue) (st : Classroom.State) (bst : Board.State).



End Defensive.

(** * Further properties of the procedure registry *)

Section RegistryTeardown.
Context {St : Type}.
Variable JSON_parse : string → option JValue.
Variable JSON_stringify : JValue → string.
Implicit Types (w : @Rpc.Hook St) (method : string) (evs : list (@Rpc.Event St)).

(** X9. Teardown undoes the registration, and registration works again
    afterwards. After any history, running the cleanup leaves no
    registration for the method and clears [registeredRef]; the next
    effect run on the connected session registers exactly once and
    returns a cleanup. *)
Theorem cleanup_unregisters method (connected : bool)
    (handler : @Rpc.Handler St) evs :
  let w := Rpc.cleanup (Rpc.run JSON_parse JSON_stringify method evs
                          (Rpc.mount connected handler)) in
  Rpc.bindings method w = []
  ∧ Rpc.registeredRef w = false
  ∧ length (Rpc.bindings method
              (fst (Rpc.effect JSON_parse JSON_stringify method (Rpc.connect w))))
    = 1%nat
  ∧ snd (Rpc.effect JSON_parse JSON_stringify method (Rpc.connect w)) = true.
Proof.
  cbv zeta.
  set (w0 := Rpc.run JSON_parse JSON_stringify method evs
               (Rpc.mount connected handler)).
  assert (H0 : Rpc.consistent JSON_parse JSON_stringify method w0)
    by exact (consistent_run JSON_parse JSON_stringify _ _ _
                (consistent_mount JSON_parse JSON_stringify _ _ _)).
  assert (Hflag : Rpc.registeredRef (Rpc.cleanup w0) = false).
  { unfold Rpc.cleanup. destruct (Rpc.unregisterRef w0) as [id|] eqn:E;
      [reflexivity|].
    unfold Rpc.consistent in H0. rewrite E in H0.
    destruct (Rpc.localParticipant w0); [|tauto].
    destruct (Rpc.registeredRef w0); [|reflexivity].
    destruct H0 as (id & ? & _). discriminate. }
  pose proof (consistent_cleanup JSON_parse JSON_stringify _ _ H0) as H1.
  pose proof (consistent_bindings JSON_parse JSON_stringify _ _ H1) as Hlen.
  rewrite Hflag in Hlen.
  pose proof (consistent_effect JSON_parse JSON_stringify _ _
                (consistent_connect JSON_parse JSON_stringify _ _ H1)) as H2.
  pose proof (consistent_bindings JSON_parse JSON_stringify _ _ H2) as Hlen2.
  assert (Heff : Rpc.effect JSON_parse JSON_stringify method
                   (Rpc.connect (Rpc.cleanup w0))
                 = (fst (Rpc.effect JSON_parse JSON_stringify method
                           (Rpc.connect (Rpc.cleanup w0))), true)
                 ∧ Rpc.registeredRef
                     (fst (Rpc.effect JSON_parse JSON_stringify method
                             (Rpc.connect (Rpc.cleanup w0))))
                   = true).
  { unfold Rpc.effect. cbn [Rpc.connect Rpc.localParticipant Rpc.registeredRef].
    rewrite Hflag.
    destruct (Rpc.localParticipant (Rpc.cleanup w0)); split; reflexivity. }
  destruct Heff as [Heff Hreg]. rewrite Hreg in Hlen2.
  repeat split.
  - now destruct (Rpc.bindings method (Rpc.cleanup w0)).
  - exact Hflag.
  - exact Hlen2.
  - now rewrite Heff.
Qed.

End RegistryTeardown.

Section Acknowledgement.
Variable JSON_parse : string → option JValue.
Variable JSON_stringify : JValue → string.

Lemma classroom_rules_return_undefined (payload : JValue) (st : Classroom.State) :
  Forall (λ rule : JValue → Eff Classroom.State JValue,
            ∀ v, fst (rule payload st) = Returned v → v = JUndefined)
    (snd <$> Classroom.rules).
Proof.
  cbn [Classroom.rules fmap list_fmap snd].
  repeat apply List.Forall_cons; [..|apply List.Forall_nil]; intros v.
  - unfold Classroom.highlight_text. handler_steps.
    destruct (get_prop payload "words") as [x|e]; [destruct (truthy x)|];
      simpl; congruence.
  - unfold Classroom.update_content. handler_steps.
    destruct (get_prop payload "text") as [x|e]; [destruct (truthy x)|];
      simpl; congruence.
  - unfold Classroom.show_student_focus. handler_steps.
    destruct (get_prop payload "studentName") as [x|e]; [destruct (truthy x)|];
      simpl; congruence.
  - rewrite start_cognitive_test_unfold.
    destruct (get_prop payload "question") as [question|e]; [|simpl; congruence].
    destruct (truthy question); [|simpl; congruence].
    destruct (get_prop payload "answers") as [raw|e]; [|simpl; congruence].
    destruct (truthy raw); [|simpl; congruence]. cbv zeta.
    destruct (fst (js_map ClassroomPage.hidden_answer raw _)); simpl; congruence.
  - unfold Classroom.reveal_answer. handler_steps.
    destruct (get_prop payload "index") as [[| | |q| | |]|e]; simpl; congruence.
  - unfold Classroom.update_scores. handler_steps.
    destruct (get_prop payload "scores") as [x|e]; [destruct (truthy x)|];
      simpl; congruence.
  - simpl. congruence.
Qed.

Lemma board_rules_return_text (payload : JValue) (bst : Board.State) :
  Forall (λ rule : JValue → Eff Board.State JValue,
            ∀ v, fst (rule payload bst) = Returned v → v = JStr success_text)
    (snd <$> Board.rules).
Proof.
  cbn [Board.rules fmap list_fmap snd].
  repeat apply List.Forall_cons; [..|apply List.Forall_nil]; intros v.
  - unfold Board.update_content. handler_steps.
    destruct (get_prop payload "text") as [x|e]; [destruct (Board.is_defined x)|];
      simpl; congruence.
  - unfold Board.highlight_text. handler_steps.
    destruct (get_prop payload "words") as [x|e]; [destruct (truthy x)|];
      simpl; congruence.
  - simpl. congruence.
  - simpl. congruence.
Qed.

(** X10. What the caller gets back. A classroom rule returns nothing, so
    the callback answers with the serialized object [{success: true}]; a
    talk-page rule returns that object already serialized, and the
    callback serializes the string once more. In both cases the state is
    the one the rule left, and what the rule raises is raised to the
    caller. *)
Theorem callback_acknowledges (raw : string) :
  Forall (λ rule : JValue → Eff Classroom.State JValue,
            ∀ st, Rpc.callback JSON_parse JSON_stringify
                    (Rpc.mount true rule) raw st
                  = match rule (Rpc.decode JSON_parse raw) st with
                    | (Returned _, st') =>
                        (Returned (JSON_stringify success_object), st')
                    | (Raised e, st') => (Raised e, st')
                    end)
    (snd <$> Classroom.rules)
  ∧ Forall (λ rule : JValue → Eff Board.State JValue,
              ∀ bst, Rpc.callback JSON_parse JSON_stringify
                       (Rpc.mount true rule) raw bst
                     = match rule (Rpc.decode JSON_parse raw) bst with
                       | (Returned _, bst') =>
                           (Returned (JSON_stringify (JStr success_text)), bst')
                       | (Raised e, bst') => (Raised e, bst')
                       end)
      (snd <$> Board.rules).
Proof.
  split; apply Forall_forall; intros rule Hin st;
    unfold Rpc.callback, Rpc.invocation; handler_steps;
    cbn [Rpc.handlerRef Rpc.mount].
  - pose proof (classroom_rules_return_undefined
                  (Rpc.decode JSON_parse raw) st) as Hall.
    rewrite Forall_forall in Hall. specialize (Hall rule Hin).
    destruct (rule (Rpc.decode JSON_parse raw) st) as [[v|e] st'];
      [|reflexivity].
    now rewrite (Hall v eq_refl).
  - pose proof (board_rules_return_text
                  (Rpc.decode JSON_parse raw) st) as Hall.
    rewrite Forall_forall in Hall. specialize (Hall rule Hin).
    destruct (rule (Rpc.decode JSON_parse raw) st) as [[v|e] st'];
      [|reflexivity].
    now rewrite (Hall v eq_refl).
Qed.

(** X11. A payload that is not JSON reaches the rule as the raw string.
    A string carries none of the fields, so every rule that needs a field
    leaves the state as it was and acknowledges. *)
Theorem raw_string_payload_is_ignored (raw : string) (st : Classroom.State)
    (bst : Board.State) :
  JSON_parse raw = None →
  Forall (λ rule : JValue → Eff Classroom.State JValue,
            Rpc.callback JSON_parse JSON_stringify (Rpc.mount true rule) raw st
            = (Returned (JSON_stringify success_object), st))
    [ Classroom.highlight_text; Classroom.update_content;
      Classroom.show_student_focus; Classroom.start_cognitive_test;
      Classroom.reveal_answer; Classroom.update_scores ]
  ∧ Forall (λ rule : JValue → Eff Board.State JValue,
              Rpc.callback JSON_parse JSON_stringify (Rpc.mount true rule) raw bst
              = (Returned (JSON_stringify (JStr success_text)), bst))
      [ Board.update_content; Board.highlight_text; Board.show_student_focus ].
Proof.
  intros Hparse.
  split; repeat apply List.Forall_cons; try apply List.Forall_nil;
    unfold Rpc.callback, Rpc.invocation, Rpc.decode; rewrite Hparse;
    try (destruct bst); reflexivity.
Qed.

End Acknowledgement.

Lemma raw_string_payload_is_ignored_witness :
  Rpc.callback (λ _, None) (λ _, "ack") (Rpc.mount true Classroom.update_scores)
    "hello" Samples.classroom
  = (Returned "ack", Samples.classroom).
Proof.
  pose proof (raw_string_payload_is_ignored (λ _, None) (λ _, "ack") "hello"
                Samples.classroom Samples.board eq_refl) as [H _].
  rewrite Forall_forall in H. apply H. repeat constructor.
Defined.

(** * Further properties of the highlight matcher *)

Section Fragments.
Import Highlight Matching.
Implicit Types (text s cur alt w : string) (alts : list string)
  (highlights : list HighlightWord).

Lemma lower_upper_char (c : ascii) : lower_char (upper_char c) = lower_char c.
Proof. destruct c as [[] [] [] [] [] [] [] []]; reflexivity. Qed.

Lemma upper_lower_char (c : ascii) : upper_char (lower_char c) = upper_char c.
Proof. destruct c as [[] [] [] [] [] [] [] []]; reflexivity. Qed.

(** The [i] flag and [toLowerCase] identify the same characters. *)
Lemma same_letter (a c : ascii) :
  Ascii.eqb (upper_char a) (upper_char c) = true ↔ lower_char a = lower_char c.
Proof.
  rewrite Ascii.eqb_eq. split; intros H.
  - now rewrite <- (lower_upper_char a), H, lower_upper_char.
  - now rewrite <- (upper_lower_char a), H, upper_lower_char.
Qed.

Lemma matches_prefix_app alt s s' :
  matches_prefix alt s = true → matches_prefix alt (s ++ s') = true.
Proof.
  revert s. induction alt as [|a alt IH]; intros [|c s]; try done.
  rewrite string_app_cons. cbn [matches_prefix].
  intros [-> H]%andb_prop. now rewrite (IH _ H).
Qed.

Lemma matches_prefix_lower alt s :
  matches_prefix alt s = true →
  toLowerCase (substring 0 (String.length alt) s) = toLowerCase alt.
Proof.
  revert s. induction alt as [|a alt IH]; intros [|c s]; simpl; try done.
  intros [Hc H]%andb_prop. apply same_letter in Hc. now rewrite Hc, IH.
Qed.

Lemma lower_matches_prefix alt s :
  toLowerCase alt = toLowerCase s → matches_prefix alt s = true.
Proof.
  revert s. induction alt as [|a alt IH]; intros [|c s]; simpl; try done.
  intros [= Hc H]. apply same_letter in Hc. now rewrite Hc, IH.
Qed.

Lemma exec_at_None alts s alt :
  exec_at alts s = None → alt ∈ alts → matches_prefix alt s = false.
Proof.
  unfold exec_at. destruct (List.find _ alts) eqn:E; [discriminate|].
  intros _ Hin%list_elem_of_In.
  apply (List.find_none _ _ E) in Hin. exact Hin.
Qed.

Lemma exec_at_Some alts s (n : nat) :
  exec_at alts s = Some n →
  ∃ alt, alt ∈ alts ∧ matches_prefix alt s = true ∧ n = String.length alt.
Proof.
  unfold exec_at. destruct (List.find _ alts) as [alt|] eqn:E; [|discriminate].
  intros [= <-]. apply List.find_some in E as [Hin%list_elem_of_In Hm]. eauto.
Qed.

Lemma no_match_in_snoc alts cur (c : ascii) s :
  no_match_in alts cur (String c s) → exec_at alts (String c s) = None →
  no_match_in alts (cur ++ String c "") s.
Proof.
  intros Hcur Hc. induction cur as [|d cur IH].
  - split; [exact Hc | exact I].
  - destruct Hcur as [Hd Hcur].
    change (exec_at alts ((String d cur ++ String c "") ++ s) = None
            ∧ no_match_in alts (cur ++ String c "") s).
    split; [|now apply IH]. now rewrite string_app_assoc.
Qed.

Lemma no_match_in_clean alts cur s :
  Forall (λ alt, alt ≠ "") alts → no_match_in alts cur s → clean alts cur.
Proof.
  intros Hne Hcur alt k Hin. rewrite Forall_forall in Hne.
  revert k. induction cur as [|c cur IH]; intros k.
  - specialize (Hne alt Hin). destruct k, alt; done.
  - destruct Hcur as [Hc Hcur]. destruct k as [|k]; [|now apply IH].
    cbn [string_drop].
    destruct (matches_prefix alt (String c cur)) eqn:E; [|reflexivity].
    apply (matches_prefix_app _ _ s) in E.
    now rewrite (exec_at_None _ _ _ Hc Hin) in E.
Qed.

Lemma clean_empty alts : Forall (λ alt, alt ≠ "") alts → clean alts "".
Proof. intros Hne. now apply (no_match_in_clean alts "" ""). Qed.

(** The loop of [split] emits clean pieces and matched separators in
    turn. *)
Lemma split_loop_shape alts s cur (skip : nat) :
  Forall (λ alt, alt ≠ "") alts →
  (skip = 0%nat → no_match_in alts cur s) → (skip ≠ 0%nat → cur = "") →
  pieces_and_separators alts (split_loop alts s cur skip).
Proof.
  intros Hne. revert cur skip.
  induction s as [|c s IH]; intros cur skip Hcur Hskip.
  - cbn [split_loop pieces_and_separators]. destruct skip as [|k].
    + apply (no_match_in_clean alts cur ""); [exact Hne | now apply Hcur].
    + rewrite Hskip by done. now apply clean_empty.
  - cbn [split_loop]. destruct skip as [|k].
    + specialize (Hcur eq_refl).
      destruct (exec_at alts (String c s)) as [n|] eqn:E.
      * apply exec_at_Some in E as (alt & Hin & Hm & ->).
        destruct alt as [|a alt];
          [rewrite Forall_forall in Hne; now specialize (Hne _ Hin)|].
        cbn [String.length pieces_and_separators]. repeat split.
        -- apply (no_match_in_clean alts cur (String c s)); assumption.
        -- exists (String a alt). split; [exact Hin|].
           now apply (matches_prefix_lower (String a alt)).
        -- apply IH; [intros _; exact I | intros _; reflexivity].
      * apply IH; [|done]. intros _. now apply no_match_in_snoc.
    + rewrite Hskip by done. apply IH; [intros _; exact I | intros _; reflexivity].
Qed.

Lemma render_part_term highlights (x : string) :
  is_term (word <$> highlights) x → is_mark (render_part highlights x) = true.
Proof.
  intros (alt & (h & -> & Hin)%list_elem_of_fmap & Hlow).
  unfold render_part.
  destruct (List.find _ highlights) eqn:E; [reflexivity|].
  apply list_elem_of_In in Hin. apply (List.find_none _ _ E) in Hin.
  cbn beta in Hin. now rewrite Hlow, String.eqb_refl in Hin.
Qed.

Lemma render_part_clean highlights (x : string) :
  clean (word <$> highlights) x → render_part highlights x = Plain x.
Proof.
  intros Hclean. unfold render_part.
  destruct (List.find _ highlights) as [h|] eqn:E; [|reflexivity].
  apply List.find_some in E as [Hin%list_elem_of_In Heq].
  apply String.eqb_eq in Heq.
  pose proof (Hclean (word h) 0%nat (list_elem_of_fmap_2 word _ _ Hin)) as Hno.
  cbn [string_drop] in Hno.
  now rewrite (lower_matches_prefix _ _ Heq) in Hno.
Qed.

Lemma render_shape highlights (l : list string) :
  pieces_and_separators (word <$> highlights) l →
  alternates (render_part highlights <$> l) = true
  ∧ ∀ p, Plain p ∈ render_part highlights <$> l →
      clean (word <$> highlights) p.
Proof.
  revert l. fix IH 1. intros [|p [|sep rest]]; cbn [pieces_and_separators].
  - intros [].
  - intros Hp. cbn [fmap list_fmap]. rewrite (render_part_clean _ _ Hp).
    split; [reflexivity|]. now intros q [= ->]%list_elem_of_singleton.
  - intros (Hp & Hsep & Hrest). cbn [fmap list_fmap].
    rewrite (render_part_clean _ _ Hp).
    pose proof (render_part_term _ _ Hsep) as Hmark.
    destruct (IH rest Hrest) as [Halt Hplain].
    destruct (render_part highlights sep) as [|m css] eqn:E; [discriminate|].
    split; [exact Halt|].
    intros q [[= ->]|[[=]|Hq]%elem_of_cons]%elem_of_cons;
      [exact Hp | now apply Hplain].
Qed.


(** X12. Whatever the text and the terms, the matcher returns, its
    fragments put together are the text, every marked fragment is one of
    the terms up to case, and no plain fragment is. *)
Theorem fragments_rebuild_text text highlights :
  ∃ r, splitTextOnHighlights text highlights = Returned r
       ∧ shown_text r = text
       ∧ (∀ p css, Mark p css ∈ fragments r →
            ∃ h, h ∈ highlights ∧ toLowerCase (word h) = toLowerCase p)
       ∧ (∀ p h, Plain p ∈ fragments r → h ∈ highlights →
            toLowerCase (word h) ≠ toLowerCase p).
Proof.
  destruct (splitTextOnHighlights_preserves_text text highlights)
    as (r & Hr & Htext).
  exists r. split; [exact Hr|]. split; [exact Htext|].
  unfold splitTextOnHighlights in Hr.
  destruct (_ || _); [injection Hr as <-; split; intros *; inversion 1|].
  destruct (RegExp (pattern_source highlights)) as [alts|]; [|discriminate].
  injection Hr as <-. cbn [fragments].
  split.
  - intros p css (x & Hx & _)%(list_elem_of_fmap_1 (render_part highlights)).
    unfold render_part in Hx.
    destruct (List.find _ highlights) as [h|] eqn:E; [|discriminate].
    injection Hx as -> _.
    apply List.find_some in E as [Hin%list_elem_of_In Heq%String.eqb_eq].
    eauto.
  - intros p h (x & Hx & _)%(list_elem_of_fmap_1 (render_part highlights))
      Hin%list_elem_of_In Heq.
    unfold render_part in Hx.
    destruct (List.find _ highlights) as [h'|] eqn:E; [discriminate|].
    injection Hx as ->. apply (List.find_none _ _ E) in Hin.
    cbn beta in Hin. now rewrite Heq, String.eqb_refl in Hin.
Qed.

(** X13. On ASCII input, with terms whose words are not empty, the
    matcher misses nothing: on a non-empty text it returns fragments in
    which plain and marked ones take turns, a plain one first and last,
    and no term occurs anywhere inside a plain fragment, in any letter
    case. *)
Theorem no_term_is_left_plain text highlights :
  text ≠ "" → highlights ≠ [] → Forall (λ h, word h ≠ "") highlights →
  ascii_string text = true →
  Forall (λ h, ascii_string (word h) = true) highlights →
  ∃ parts, splitTextOnHighlights text highlights = Returned (Parts parts)
           ∧ alternates parts = true
           ∧ ∀ p h (k : nat), Plain p ∈ parts → h ∈ highlights →
               matches_prefix (word h) (string_drop k p) = false.
Proof.
  intros Htext Hhs Hwords _ _. unfold splitTextOnHighlights.
  destruct highlights as [|h0 hs]; [done|]. destruct text as [|c text]; [done|].
  cbn [length Nat.eqb String.eqb orb].
  rewrite RegExp_pattern_source by done. eexists. split; [reflexivity|].
  unfold split.
  assert (Hshape : pieces_and_separators (word <$> h0 :: hs)
                     (split_loop (map word (h0 :: hs)) (String c text) "" 0)).
  { apply split_loop_shape; [|intros _; exact I|done].
    now apply Forall_fmap. }
  destruct (render_shape _ _ Hshape) as [Halt Hplain].
  split; [exact Halt|].
  intros p h k Hp Hin. apply (Hplain p Hp).
  now apply list_elem_of_fmap_2.
Qed.

Lemma no_term_is_left_plain_witness :
  ∃ parts,
    splitTextOnHighlights "The cat sat" [Samples.cat_noun] = Returned (Parts parts)
    ∧ alternates parts = true
    ∧ ∀ p h (k : nat), Plain p ∈ parts → h ∈ [Samples.cat_noun] →
        matches_prefix (word h) (string_drop k p) = false.
Proof.
  apply no_term_is_left_plain;
    [discriminate | discriminate | | reflexivity |];
    repeat constructor. discriminate.
Defined.

(** X14. Escaping makes every word literal. The pattern built from a
    non-empty term list always compiles, whatever characters the words
    hold, and its alternatives are the words themselves, in list order. *)
Theorem pattern_source_is_literal highlights :
  highlights ≠ [] →
  RegExp (pattern_source highlights) = Some (word <$> highlights).
Proof. apply RegExp_pattern_source. Qed.

Lemma pattern_source_is_literal_witness :
  RegExp (pattern_source
            [ {| word := "a.b|(c)"; type := "noun"; positions := None |};
              Samples.cat_noun ])
  = Some ["a.b|(c)"; "cat"].
Proof.
  apply (pattern_source_is_literal
           [ {| word := "a.b|(c)"; type := "noun"; positions := None |};
             Samples.cat_noun ]).
  discriminate.
Defined.

End Fragments.

(** * Properties of the classroom's content panel *)

Section ContentPanelProperties.
Import Highlight ContentPanel.
Implicit Types (content s cur w : string) (highlights : list HighlightWord)
  (rules : list HighlightRule).

Lemma split_on_space_cons s cur :
  ∃ p rest, split_on_space s cur = p :: rest.
Proof.
  revert cur. induction s as [|c s IH]; intros cur; cbn [split_on_space].
  - eauto.
  - destruct (Ascii.eqb c " "); eauto.
Qed.

Lemma join_split_on_space s cur :
  join " " (split_on_space s cur) = (cur ++ s)%string.
Proof.
  revert cur. induction s as [|c s IH]; intros cur; cbn [split_on_space].
  - cbn [join]. now rewrite string_app_nil_r.
  - destruct (Ascii.eqb_spec c " ") as [->|_].
    + destruct (split_on_space_cons s "") as (p & rest & E).
      specialize (IH ""). rewrite E in *.
      change (join " " (cur :: p :: rest))
        with (cur ++ " " ++ join " " (p :: rest))%string.
      now rewrite IH.
    + now rewrite IH, string_app_assoc.
Qed.

Lemma span_word_renderWord highlights rules w :
  span_word (renderWord highlights rules w) = w.
Proof.
  unfold renderWord. destruct (List.find _ highlights) as [h|]; [|reflexivity].
  now destruct (getStyleForType rules (Highlight.type h)).
Qed.

Lemma split_on_space_length s cur :
  length (split_on_space s cur) = S (blanks s).
Proof.
  revert cur. induction s as [|c s IH]; intros cur; [reflexivity|].
  cbn [split_on_space]. unfold blanks. cbn [list_ascii_of_string List.filter].
  destruct (Ascii.eqb c " "); [cbn [length]; f_equal|]; apply IH.
Qed.

Lemma split_on_space_no_blank s cur :
  no_blank cur = true → Forall (λ w, no_blank w = true) (split_on_space s cur).
Proof.
  unfold no_blank.
  revert cur. induction s as [|c s IH]; intros cur Hcur; cbn [split_on_space].
  - now constructor.
  - destruct (Ascii.eqb c " ") eqn:E.
    + constructor; [exact Hcur | now apply IH].
    + apply IH. clear IH. induction cur as [|d cur IHc].
      * change ("" ++ String c "")%string with (String c "").
        cbn [list_ascii_of_string forallb]. now rewrite E.
      * rewrite string_app_cons. cbn [list_ascii_of_string forallb] in *.
        apply andb_prop in Hcur as [-> Hcur]. now apply IHc.
Qed.

(** X15. The content panel shows the content, a span for each
    blank-separated word: for a non-empty content it renders one span
    more than the content has blanks, no span holds a blank, and the
    words of the spans joined by blanks are the content, whatever is
    highlighted. *)
Theorem ContentPanel_shows_content content highlights rules :
  content ≠ "" →
  ∃ spans, ContentPanel content highlights rules = Words spans
           ∧ length spans = S (blanks content)
           ∧ Forall (λ span, no_blank (span_word span) = true) spans
           ∧ span_word <$> spans = split_on_space content ""
           ∧ join " " (span_word <$> spans) = content.
Proof.
  intros Hne. unfold ContentPanel.
  destruct (String.eqb_spec content ""); [done|].
  eexists. split; [reflexivity|].
  assert (Hwords : span_word <$> map (renderWord highlights rules)
                                   (split_on_space content "")
                   = split_on_space content "").
  { induction (split_on_space content "") as [|x l IH]; [reflexivity|].
    cbn [map fmap list_fmap]. rewrite span_word_renderWord. f_equal. exact IH. }
  repeat apply conj.
  - now rewrite length_map, split_on_space_length.
  - pose proof (split_on_space_no_blank content "" eq_refl) as Hnb.
    rewrite Forall_forall in Hnb. apply Forall_forall.
    intros span (x & -> & Hx)%(list_elem_of_fmap_1 (renderWord highlights rules)).
    rewrite span_word_renderWord. now apply Hnb.
  - exact Hwords.
  - rewrite Hwords. apply join_split_on_space.
Qed.

Lemma ContentPanel_shows_content_witness :
  ∃ spans,
    ContentPanel "The Fox, ran."
      [ {| word := "fox"; Highlight.type := "Noun"; positions := None |} ]
      classroom_rules
    = Words spans
    ∧ length spans = 3%nat
    ∧ join " " (span_word <$> spans) = "The Fox, ran.".
Proof.
  destruct (ContentPanel_shows_content "The Fox, ran."
              [ {| word := "fox"; Highlight.type := "Noun"; positions := None |} ]
              classroom_rules) as (spans & E & Hlen & _ & _ & Hjoin);
    [discriminate|].
  exists spans. repeat split; assumption.
Defined.

Lemma lower_char_class (c : ascii) :
  is_word_char (lower_char c) = is_word_char c
  ∧ is_space_char (lower_char c) = is_space_char c
  ∧ Ascii.eqb (lower_char c) " " = Ascii.eqb c " ".
Proof. destruct c as [[] [] [] [] [] [] [] []]; repeat split. Qed.

Lemma matchable_cons (c : ascii) s :
  matchable (String c s)
  = (is_word_char c || is_space_char c) && negb (Ascii.eqb c " ")
    && matchable s.
Proof. reflexivity. Qed.

Lemma matchable_lower s : matchable (toLowerCase s) = matchable s.
Proof.
  induction s as [|c s IH]; [reflexivity|]. cbn [toLowerCase].
  rewrite !matchable_cons, IH.
  now destruct (lower_char_class c) as (-> & -> & ->).
Qed.

(** A word without a blank, once cleaned, is matchable. *)
Lemma matchable_strip w :
  forallb (λ c, negb (Ascii.eqb c " ")) (list_ascii_of_string w) = true →
  matchable (strip_punctuation w) = true.
Proof.
  induction w as [|c w IH]; [reflexivity|]. cbn [list_ascii_of_string forallb].
  intros [Hc Hw]%andb_prop. cbn [strip_punctuation].
  destruct (is_word_char c || is_space_char c) eqn:E; [|now apply IH].
  now rewrite matchable_cons, E, Hc, IH.
Qed.

(** X16. On ASCII content, terms and types: when the content panel
    styles a word, some term equals the word after punctuation is
    stripped and case is folded, and some rule carries that term's type
    in lower case. Such a term is made of word characters and whitespace
    other than the blank: a term that contains punctuation or a blank is
    never styled, and a term whose type has no rule leaves its word
    plain. *)
Theorem ContentPanel_styles_only_matches content highlights rules
    (spans : list Span) w (css : option Css) :
  Matching.ascii_string content = true →
  Forall (λ h, Matching.ascii_string (word h) = true
               ∧ Matching.ascii_string (Highlight.type h) = true) highlights →
  ContentPanel content highlights rules = Words spans →
  Styled w css ∈ spans →
  ∃ h r, h ∈ highlights ∧ r ∈ rules
         ∧ toLowerCase (word h) = cleanWord w
         ∧ matchable (word h) = true
         ∧ type r = toLowerCase (Highlight.type h).
Proof.
  intros _ _.
  unfold ContentPanel. destruct (String.eqb content ""); [discriminate|].
  intros [= <-] (x & Hx & Hin)%(list_elem_of_fmap_1 (renderWord highlights rules)).
  pose proof (split_on_space_no_blank content "" eq_refl) as Hnb.
  rewrite Forall_forall in Hnb. specialize (Hnb x Hin).
  unfold renderWord in Hx.
  destruct (List.find _ highlights) as [h|] eqn:Eh; [|discriminate].
  unfold getStyleForType in Hx.
  destruct (List.find _ rules) as [r|] eqn:Er; [|discriminate].
  injection Hx as -> _.
  apply List.find_some in Eh as [Hh%list_elem_of_In Heq%String.eqb_eq].
  apply List.find_some in Er as [Hr%list_elem_of_In Hty%String.eqb_eq].
  exists h, r. repeat split; try assumption.
  rewrite <- matchable_lower, Heq. unfold cleanWord.
  rewrite matchable_lower. now apply matchable_strip.
Qed.

Lemma ContentPanel_styles_only_matches_witness :
  ∃ h r, h ∈ [ {| word := "fox"; Highlight.type := "Noun"; positions := None |} ]
         ∧ r ∈ classroom_rules
         ∧ toLowerCase (word h) = cleanWord "Fox,"
         ∧ matchable (word h) = true
         ∧ type r = toLowerCase (Highlight.type h).
Proof.
  refine (ContentPanel_styles_only_matches "The Fox, ran."
            [ {| word := "fox"; Highlight.type := "Noun"; positions := None |} ]
            classroom_rules _ "Fox,"
            (Some (Highlighted "#ff4d0028" "2px solid #ff4d00"))
            eq_refl _ eq_refl _).
  - repeat constructor.
  - apply list_elem_of_In. right. left. reflexivity.
Defined.

End ContentPanelProperties.

(** * Properties of the recursion over rendered content *)

Section Tree.
Import Highlight BoardTree.
Implicit Types (node : ReactNode) (highlights : list HighlightWord).

Lemma part_nodes_leaves (parts : list Part) :
  string_leaves (RArray (map part_node parts)) = join "" (map part_text parts).
Proof.
  cbn [string_leaves]. induction parts as [|p parts IH]; [reflexivity|].
  cbn [map]. rewrite join_empty_cons, <- IH. now destruct p.
Qed.

Lemma part_nodes_elements (parts : list Part) :
  elements_but ["React.Fragment"; "motion.span"] (RArray (map part_node parts))
  = [].
Proof.
  cbn [elements_but]. induction parts as [|p parts IH]; [reflexivity|].
  cbn [map]. rewrite IH. now destruct p.
Qed.

(** X17. [highlightContent] keeps the document. On every node and for
    every term list it returns; the string leaves of the result, put
    together in order, are those of the node; and the elements of the
    node come back with their types and styles, in order: the only
    elements added are the fragments around array items and the spans
    around matches. *)
Theorem highlightContent_keeps_document node highlights :
  ∃ r, highlightContent node highlights = Returned r
       ∧ string_leaves r = string_leaves node
       ∧ elements_but ["React.Fragment"; "motion.span"] r
         = elements_but ["React.Fragment"; "motion.span"] node.
Proof.
  revert node. fix IH 1. intros [s|n|b| |items|type css child].
  - cbn [highlightContent].
    destruct (splitTextOnHighlights_preserves_text s highlights)
      as (r & -> & Hr).
    eexists. split; [reflexivity|]. destruct r as [t|parts]; cbn in Hr |- *.
    + now subst.
    + split; [now rewrite <- Hr, <- part_nodes_leaves | apply part_nodes_elements].
  - eexists. repeat split.
  - eexists. repeat split.
  - eexists. repeat split.
  - cbn [highlightContent string_leaves elements_but].
    induction items as [|child items IHitems].
    + eexists. repeat split.
    + destruct (IH child) as (r & -> & Hleaves & Helems).
      destruct IHitems as (rs & Hrs & Hl & He).
      match type of Hrs with
      | match ?e with _ => _ end = _ => destruct e as [rs'|e'] eqn:E
      end; [|discriminate].
      injection Hrs as <-. eexists. split; [reflexivity|].
      cbn [string_leaves elements_but] in *.
      rewrite Hleaves, Hl, Helems, He. split; reflexivity.
  - cbn [highlightContent]. destruct (node_truthy child); [|eexists; repeat split].
    destruct (IH child) as (r & -> & Hleaves & Helems).
    eexists. split; [reflexivity|]. cbn [string_leaves elements_but].
    now rewrite Hleaves, Helems.
Qed.

End Tree.

(** * Further properties of the signal extractor and its visualizer *)

Section Samples01.
Import Audio.

Lemma normalized_in_range (bytes : list Z) :
  Forall (λ val, 0 ≤ val ≤ 255)%Z bytes →
  Forall (λ x, 0 <= x ∧ x <= 1)%Q (map (λ val, inject_Z val / 255)%Q bytes).
Proof.
  induction 1 as [|val bytes [Hlo Hhi] _ IH]; cbn [map]; constructor;
    [|exact IH].
  unfold Qle, Qdiv, Qmult, Qinv, inject_Z. simpl. lia.
Qed.

Lemma dataArray_length (platform : Platform) (n : nat) :
  length (dataArray platform n) = n.
Proof.
  unfold dataArray. rewrite length_take, length_app, length_replicate. lia.
Qed.

Lemma dataArray_bytes (platform : Platform) (n : nat) :
  Forall (λ val, 0 ≤ val ≤ 255)%Z (frequencyData platform) →
  Forall (λ val, 0 ≤ val ≤ 255)%Z (dataArray platform n).
Proof.
  intros H. unfold dataArray. apply Forall_take, Forall_app. split; [exact H|].
  apply Forall_forall. intros x [-> _]%elem_of_replicate. lia.
Qed.

Lemma dataArray_lookup (platform : Platform) (n i : nat) (val : Z) :
  (i < n)%nat → frequencyData platform !! i = Some val →
  dataArray platform n !! i = Some val.
Proof.
  intros Hi Hval. unfold dataArray.
  rewrite lookup_take_lt by exact Hi. now apply lookup_app_l_Some.
Qed.

(** X18. Samples are the analyser's bytes, normalized. With an
    [AudioContext] class and a source that resolves to a media track: for
    an [fftSize] the analyser accepts, the effect returns and leaves as
    many samples as the analyser has bins, half the [fftSize]; the sample
    of a bin is the byte the analyser wrote for it divided by 255, and
    every sample lies between 0 and 1. For an [fftSize] the analyser
    refuses, the effect returns and leaves the samples as they were. *)
Theorem attached_samples_are_normalized (platform : Platform)
    (trackSource : Shape) (fftSize : Q) (st : State) (id : nat) :
  mediaStreamTrack trackSource = MediaStreamTrack id →
  AudioContextClass platform = true →
  Forall (λ val, 0 ≤ val ≤ 255)%Z (frequencyData platform) →
  let st' := snd (effect platform trackSource fftSize st) in
  fst (effect platform trackSource fftSize st) = Returned ()
  ∧ (valid_fftSize (to_unsigned_long fftSize) = true →
     length (useAudioAnalyzer st') = frequencyBinCount fftSize
     ∧ (∀ (i : nat) (val : Z),
          (i < frequencyBinCount fftSize)%nat →
          frequencyData platform !! i = Some val →
          useAudioAnalyzer st' !! i = Some (inject_Z val / 255)%Q)
     ∧ Forall (λ x, 0 <= x ∧ x <= 1)%Q (useAudioAnalyzer st'))
  ∧ (valid_fftSize (to_unsigned_long fftSize) = false →
     useAudioAnalyzer st' = useAudioAnalyzer st).
Proof.
  intros Htrack Hctx Hbytes. unfold effect, useAudioAnalyzer.
  rewrite Htrack, Hctx. handler_steps. cbn [negb instanceof_MediaStreamTrack].
  destruct (valid_fftSize (to_unsigned_long fftSize)); cbn [fst snd data].
  - split; [reflexivity|]. split; [|discriminate]. intros _. repeat apply conj.
    + now rewrite length_map, dataArray_length.
    + intros i val Hi Hval. rewrite list_lookup_fmap.
      now rewrite (dataArray_lookup _ _ _ _ Hi Hval).
    + now apply normalized_in_range, dataArray_bytes.
  - split; [reflexivity|]. split; [discriminate|]. reflexivity.
Qed.

Lemma attached_samples_are_normalized_witness :
  (let st' :=
     snd (effect {| AudioContextClass := true;
                    frequencyData := [0; 51; 255]%Z |}
            (Object {[ "track" :=
                         Object {[ "mediaStreamTrack" := MediaStreamTrack 7 ]} ]})
            64
            {| data := []; rafRef := false; sourceRef := false;
               analyserRef := false; audioContextRef := false |}) in
   length (useAudioAnalyzer st') = 32%nat
   ∧ useAudioAnalyzer st' !! 1%nat = Some (inject_Z 51 / 255)%Q)
  ∧ useAudioAnalyzer
      (snd (effect {| AudioContextClass := true;
                      frequencyData := [0; 51; 255]%Z |}
              (MediaStreamTrack 7) 48
              {| data := [0%Q; 0%Q]; rafRef := false; sourceRef := false;
                 analyserRef := false; audioContextRef := false |}))
    = [0%Q; 0%Q].
Proof.
  split.
  - destruct (attached_samples_are_normalized
                {| AudioContextClass := true; frequencyData := [0; 51; 255]%Z |}
                (Object {[ "track" :=
                             Object {[ "mediaStreamTrack" := MediaStreamTrack 7 ]} ]})
                64
                {| data := []; rafRef := false; sourceRef := false;
                   analyserRef := false; audioContextRef := false |} 7)
      as (_ & Hvalid & _);
      [vm_compute; reflexivity | reflexivity | repeat constructor; lia |].
    destruct (Hvalid eq_refl) as (Hlen & Hat & _).
    split; [exact Hlen|]. apply Hat; [vm_compute; lia | reflexivity].
  - destruct (attached_samples_are_normalized
                {| AudioContextClass := true; frequencyData := [0; 51; 255]%Z |}
                (MediaStreamTrack 7) 48
                {| data := [0%Q; 0%Q]; rafRef := false; sourceRef := false;
                   analyserRef := false; audioContextRef := false |} 7)
      as (_ & _ & Hinvalid);
      [reflexivity | reflexivity | repeat constructor; lia |].
    apply Hinvalid. reflexivity.
Defined.

(** X19. When sampling cannot start, because the browser has no
    [AudioContext] class or because what the source resolves to is not a
    media track, the mounted hook keeps returning its initial samples,
    which are all zero. *)
Theorem failed_setup_keeps_zeros (platform : Platform) (trackSource : Shape)
    (fftSize : Q) (st0 : State) :
  mount fftSize = Returned st0 →
  AudioContextClass platform = false
  ∨ instanceof_MediaStreamTrack (mediaStreamTrack trackSource) = false →
  fst (effect platform trackSource fftSize st0) = Returned ()
  ∧ useAudioAnalyzer (snd (effect platform trackSource fftSize st0))
    = useAudioAnalyzer st0
  ∧ Forall (λ x, x = 0%Q) (useAudioAnalyzer st0).
Proof.
  unfold mount, effect, zero_filled, useAudioAnalyzer.
  destruct (array_length (binCount fftSize)) as [k|]; [|discriminate].
  intros [= <-] Hfail. cbn [data]. handler_steps.
  split; [|split].
  - destruct (mediaStreamTrack trackSource); try reflexivity;
      destruct (AudioContextClass platform); try reflexivity;
      cbn [negb instanceof_MediaStreamTrack];
      destruct (valid_fftSize _); reflexivity.
  - destruct (mediaStreamTrack trackSource) eqn:E; try reflexivity;
      destruct Hfail as [->|Hfail]; try reflexivity; try discriminate;
      destruct (AudioContextClass platform); reflexivity.
  - apply Forall_forall. now intros x [-> _]%elem_of_replicate.
Qed.

Lemma failed_setup_keeps_zeros_witness :
  useAudioAnalyzer
    (snd (effect {| AudioContextClass := false; frequencyData := [9%Z] |}
            (MediaStreamTrack 7) 64
            {| data := replicate 32 0%Q; rafRef := false; sourceRef := false;
               analyserRef := false; audioContextRef := false |}))
  = replicate 32 0%Q.
Proof.
  apply (failed_setup_keeps_zeros
           {| AudioContextClass := false; frequencyData := [9%Z] |}
           (MediaStreamTrack 7) 64 _ eq_refl).
  left. reflexivity.
Defined.

End Samples01.

Section Levels.
Import Visualizer.

(** X20. The matrix always gets its 28 levels. When both analyzers
    deliver at least 28 samples (an [fftSize] of 64 gives 32), the active
    levels are 28 in every state, and they lie between 0 and 1 when the
    samples do. *)
Theorem activeLevels_fill_the_matrix (state : string)
    (agentLevels micLevels : list Q) :
  (28 ≤ length agentLevels)%nat → (28 ≤ length micLevels)%nat →
  length (activeLevels state agentLevels micLevels) = 28%nat
  ∧ (Forall (λ x, 0 <= x ∧ x <= 1)%Q agentLevels →
     Forall (λ x, 0 <= x ∧ x <= 1)%Q micLevels →
     Forall (λ x, 0 <= x ∧ x <= 1)%Q
       (activeLevels state agentLevels micLevels)).
Proof.
  intros Ha Hm. unfold activeLevels.
  destruct (isAgentSpeaking state); [|destruct (isListening state)].
  - split; [rewrite length_take; lia|]. intros H _. now apply Forall_take.
  - split; [rewrite length_reverse, length_take; lia|].
    intros _ H. now apply Forall_reverse, Forall_take.
  - split; [apply length_replicate|]. intros _ _.
    apply Forall_forall. intros x [-> _]%elem_of_replicate. split; discriminate.
Qed.

Lemma activeLevels_fill_the_matrix_witness :
  length (activeLevels "listening" (replicate 32 0%Q) (replicate 32 (1 # 2)%Q))
  = 28%nat.
Proof.
  apply (activeLevels_fill_the_matrix "listening" (replicate 32 0%Q)
           (replicate 32 (1 # 2)%Q)); rewrite length_replicate; lia.
Defined.

End Levels.

(** * Properties of the transcript log *)

Section TranscriptLog.
Import Transcript.

Lemma decimal_inj n1 n2 : decimal n1 = decimal n2 → n1 = n2.
Proof.
  unfold decimal. intros E. apply DecimalNat.Unsigned.to_uint_inj.
  apply (f_equal DecimalString.NilEmpty.uint_of_string) in E.
  rewrite !DecimalString.NilEmpty.usu in E. congruence.
Qed.

Lemma entry_id_inj who1 who2 n1 n2 :
  id_prefix who1 ++ decimal n1 = id_prefix who2 ++ decimal n2 → n1 = n2.
Proof.
  destruct who1, who2; cbv [id_prefix String.append]; intros E;
    try discriminate; apply decimal_inj; congruence.
Qed.

Lemma scan_entries who segments : ∀ counter,
  (counter ≤ (scan who segments counter).2)%nat
  ∧ Forall (λ e, entry_sender e = who
                 ∧ entry_text e ≠ ""
                 ∧ (∃ seg, seg ∈ segments ∧ final seg = true
                           ∧ text seg = entry_text e)
                 ∧ ∃ n, entry_id e = id_prefix who ++ decimal n
                        ∧ (counter ≤ n < (scan who segments counter).2)%nat)
      (scan who segments counter).1
  ∧ NoDup (entry_id <$> (scan who segments counter).1).
Proof.
  induction segments as [|seg rest IH]; intros counter; cbn [scan].
  - cbn. split; [lia|]. split; constructor.
  - destruct (negb (String.eqb (text seg) "") && final seg) eqn:E.
    + apply andb_true_iff in E as [Htext Hfinal].
      apply negb_true_iff, String.eqb_neq in Htext.
      destruct (IH (S counter)) as (Hle & Hall & Hnd).
      destruct (scan who rest (S counter)) as [entries counter'].
      cbn [fst snd] in *. split; [lia|]. split.
      * constructor.
        -- cbn. repeat split; try done.
           ++ exists seg. split; [left|done].
           ++ exists counter. split; [done|lia].
        -- eapply Forall_impl; [exact Hall|].
           intros e (Hs & Ht & (s & Hin & Hf & Hx) & n & Hid & Hn).
           repeat split; try done.
           ++ exists s. split; [by right|done].
           ++ exists n. split; [done|lia].
      * cbn [fmap list_fmap]. apply NoDup_cons. split; [|exact Hnd].
        cbn [entry_id]. intros Hin.
        apply list_elem_of_fmap in Hin as (e & Hid & He).
        rewrite Forall_forall in Hall.
        destruct (Hall e He) as (_ & _ & _ & n & Hid' & Hn).
        rewrite Hid' in Hid. apply entry_id_inj in Hid. lia.
    + destruct (IH counter) as (Hle & Hall & Hnd).
      split; [exact Hle|]. split; [|exact Hnd].
      eapply Forall_impl; [exact Hall|].
      intros e (Hs & Ht & (s & Hin & Hf & Hx) & n & Hid & Hn).
      repeat split; try done.
      * exists s. split; [by right|done].
      * exists n. split; [done|lia].
Qed.

Lemma block_entries who segments last counter :
  (counter ≤ (block who segments last counter).1.2)%nat
  ∧ Forall (λ e, entry_sender e = who
                 ∧ entry_text e ≠ ""
                 ∧ (∃ seg, seg ∈ drop last segments ∧ final seg = true
                           ∧ text seg = entry_text e)
                 ∧ ∃ n, entry_id e = id_prefix who ++ decimal n
                        ∧ (counter ≤ n < (block who segments last counter).1.2)%nat)
      (block who segments last counter).1.1
  ∧ NoDup (entry_id <$> (block who segments last counter).1.1)
  ∧ (length segments ≤ (block who segments last counter).2)%nat
  ∧ (last ≤ (block who segments last counter).2)%nat.
Proof.
  unfold block. destruct (Nat.ltb_spec last (length segments)) as [Hlt|Hge].
  - destruct (scan_entries who (drop last segments) counter) as (Hle & Hall & Hnd).
    destruct (scan who (drop last segments) counter) as [entries counter'].
    cbn [fst snd] in *. repeat split; try done; lia.
  - cbn [fst snd]. repeat split; try done; try lia; constructor.
Qed.

Lemma block_seen who segments last counter :
  (length segments ≤ last)%nat →
  block who segments last counter = ([], counter, last).
Proof.
  intros H. unfold block.
  destruct (Nat.ltb_spec last (length segments)); [lia|reflexivity].
Qed.

Lemma effect_seen agentTranscriptions userSegments st :
  (length agentTranscriptions ≤ lastAgentLen st)%nat →
  (length userSegments ≤ lastUserLen st)%nat →
  effect agentTranscriptions userSegments st = st.
Proof.
  intros Ha Hu. unfold effect. rewrite !block_seen by done.
  destruct st; reflexivity.
Qed.

Lemma effect_log agentTranscriptions userSegments st :
  transcriptLog (effect agentTranscriptions userSegments st)
  = (transcriptLog st
     ++ (block agent agentTranscriptions (lastAgentLen st) (entryCounter st)).1.1
     ++ (block user userSegments (lastUserLen st)
           (block agent agentTranscriptions (lastAgentLen st)
              (entryCounter st)).1.2).1.1)%list.
Proof.
  unfold effect.
  destruct (block agent _ _ _) as [[fromAgent counter1] agentLen].
  destruct (block user _ _ _) as [[fromUser counter2] userLen].
  cbn [fst snd transcriptLog].
  destruct (fromAgent ++ fromUser)%list eqn:E; cbn [length Nat.ltb Nat.leb].
  - by rewrite app_nil_r.
  - reflexivity.
Qed.

Lemma effect_refs agentTranscriptions userSegments st :
  entryCounter (effect agentTranscriptions userSegments st)
  = (block user userSegments (lastUserLen st)
       (block agent agentTranscriptions (lastAgentLen st)
          (entryCounter st)).1.2).1.2
  ∧ lastAgentLen (effect agentTranscriptions userSegments st)
    = (block agent agentTranscriptions (lastAgentLen st) (entryCounter st)).2
  ∧ lastUserLen (effect agentTranscriptions userSegments st)
    = (block user userSegments (lastUserLen st)
         (block agent agentTranscriptions (lastAgentLen st)
            (entryCounter st)).1.2).2.
Proof.
  unfold effect.
  destruct (block agent _ _ _) as [[fromAgent counter1] agentLen].
  destruct (block user _ _ _) as [[fromUser counter2] userLen].
  by cbn.
Qed.

Lemma numbered_effect agentTranscriptions userSegments st :
  numbered st → numbered (effect agentTranscriptions userSegments st).
Proof.
  intros [Hnd Hall]. unfold numbered.
  rewrite effect_log.
  destruct (effect_refs agentTranscriptions userSegments st) as (-> & _ & _).
  destruct (block_entries agent agentTranscriptions (lastAgentLen st)
              (entryCounter st)) as (Hle1 & Hall1 & Hnd1 & _).
  set (b1 := block agent agentTranscriptions (lastAgentLen st) (entryCounter st)) in *.
  destruct (block_entries user userSegments (lastUserLen st) b1.1.2)
    as (Hle2 & Hall2 & Hnd2 & _).
  set (b2 := block user userSegments (lastUserLen st) b1.1.2) in *.
  rewrite Forall_forall in Hall, Hall1, Hall2.
  split.
  - rewrite !fmap_app. apply NoDup_app. split; [exact Hnd|]. split.
    + intros x Hx Hin.
      apply list_elem_of_fmap in Hx as (e & -> & He).
      destruct (Hall e He) as (who & n & Hid & Hn).
      apply elem_of_app in Hin as [Hin|Hin];
        apply list_elem_of_fmap in Hin as (e' & Hid' & He').
      * destruct (Hall1 e' He') as (_ & _ & _ & n' & Hid1 & Hn').
        rewrite Hid, Hid1 in Hid'. apply entry_id_inj in Hid'. lia.
      * destruct (Hall2 e' He') as (_ & _ & _ & n' & Hid1 & Hn').
        rewrite Hid, Hid1 in Hid'. apply entry_id_inj in Hid'. lia.
    + apply NoDup_app. split; [exact Hnd1|]. split; [|exact Hnd2].
      intros x Hx Hin.
      apply list_elem_of_fmap in Hx as (e & -> & He).
      apply list_elem_of_fmap in Hin as (e' & Hid' & He').
      destruct (Hall1 e He) as (_ & _ & _ & n & Hid & Hn).
      destruct (Hall2 e' He') as (_ & _ & _ & n' & Hid1 & Hn').
      rewrite Hid, Hid1 in Hid'. apply entry_id_inj in Hid'. lia.
  - apply Forall_forall. intros e He.
    apply elem_of_app in He as [He|He].
    + destruct (Hall e He) as (who & n & Hid & Hn).
      exists who, n. split; [done|lia].
    + apply elem_of_app in He as [He|He].
      * destruct (Hall1 e He) as (_ & _ & _ & n & Hid & Hn).
        exists agent, n. split; [done|lia].
      * destruct (Hall2 e He) as (_ & _ & _ & n & Hid & Hn).
        exists user, n. split; [done|lia].
Qed.

Lemma numbered_run inputs : ∀ st, numbered st → numbered (run inputs st).
Proof.
  induction inputs as [|[a u] inputs IH]; intros st H; [exact H|].
  apply IH, numbered_effect, H.
Qed.

(** X21. The log only grows, and only by finalized speech not seen
    before. One run of the effect appends entries to the log and changes
    nothing already in it; each appended entry has a non-empty text, taken
    from a segment that is final and that sits at or beyond the length of
    its sender's array seen by the previous run. *)
Theorem effect_appends_final_unseen
    (agentTranscriptions userSegments : list Segment) (st : State) :
  ∃ newEntries,
    transcriptLog (effect agentTranscriptions userSegments st)
    = (transcriptLog st ++ newEntries)%list
    ∧ Forall (λ e, entry_text e ≠ ""
                   ∧ ∃ seg, seg ∈ unseen (entry_sender e) agentTranscriptions
                                    userSegments st
                            ∧ final seg = true ∧ text seg = entry_text e)
        newEntries.
Proof.
  eexists. split; [apply effect_log|].
  destruct (block_entries agent agentTranscriptions (lastAgentLen st)
              (entryCounter st)) as (_ & Hall1 & _).
  destruct (block_entries user userSegments (lastUserLen st)
              (block agent agentTranscriptions (lastAgentLen st)
                 (entryCounter st)).1.2) as (_ & Hall2 & _).
  apply Forall_app. split.
  - eapply Forall_impl; [exact Hall1|].
    intros e (-> & Ht & Hseg & _). split; [exact Ht|exact Hseg].
  - eapply Forall_impl; [exact Hall2|].
    intros e (-> & Ht & Hseg & _). split; [exact Ht|exact Hseg].
Qed.

(** X22. Running the effect again on the same arrays changes nothing: no
    entry is logged twice and no counter moves. *)
Theorem effect_idempotent
    (agentTranscriptions userSegments : list Segment) (st : State) :
  effect agentTranscriptions userSegments
    (effect agentTranscriptions userSegments st)
  = effect agentTranscriptions userSegments st.
Proof.
  apply effect_seen.
  - destruct (effect_refs agentTranscriptions userSegments st) as (_ & -> & _).
    by destruct (block_entries agent agentTranscriptions (lastAgentLen st)
                   (entryCounter st)) as (_ & _ & _ & H & _).
  - destruct (effect_refs agentTranscriptions userSegments st) as (_ & _ & ->).
    by destruct (block_entries user userSegments (lastUserLen st)
                   (block agent agentTranscriptions (lastAgentLen st)
                      (entryCounter st)).1.2) as (_ & _ & _ & H & _).
Qed.

(** X23. Entry ids are unique. Whatever arrays the hook is handed, render
    after render, no two entries of the log share an id, so the ids serve
    as list keys. *)
Theorem entry_ids_are_unique (inputs : list (list Segment * list Segment)) :
  NoDup (entry_id <$> transcriptLog (run inputs initial)).
Proof.
  apply (numbered_run inputs initial). split; constructor.
Qed.

(** X24. A segment is looked at once. While an array is no longer than
    the length last seen, the effect logs nothing from it, so a segment
    that was unfinished when its index was first seen is not logged when
    it is finalized in place. *)
Theorem finalized_in_place_is_missed
    (agentTranscriptions userSegments : list Segment) (st : State) :
  (length agentTranscriptions ≤ lastAgentLen st)%nat →
  (length userSegments ≤ lastUserLen st)%nat →
  effect agentTranscriptions userSegments st = st.
Proof. apply effect_seen. Qed.

Lemma finalized_in_place_is_missed_witness :
  effect [{| text := "Hello"; final := true |}] []
    (effect [{| text := "Hel"; final := false |}] [] initial)
  = effect [{| text := "Hel"; final := false |}] [] initial.
Proof.
  apply (finalized_in_place_is_missed [{| text := "Hello"; final := true |}] []
           (effect [{| text := "Hel"; final := false |}] [] initial));
    vm_compute; lia.
Defined.

End TranscriptLog.
